(** * The comment-enrichment pipeline: AIProcessor and the comment routes

    A shallow embedding of [services/aiProcessor.js] (class [AIProcessor]) and of
    the Express router of the comments (the [/process], [/statistics] and
    [/status] handlers and [processCommentsInBackground]), with the properties
    the specification states about them.

    Conventions of the embedding.
    - A JavaScript string is a [string]; its characters are read as the UTF-16
      code units 0..255 (the Latin-1 range).
    - A JavaScript number that holds a floating-point value is a primitive
      binary64 [float]; a number that only ever counts (a score, an array
      length, a document count) is a [nat] and is converted where the code
      does arithmetic on it in floating point.
    - A parsed JSON payload is a [jsval].
    - A thrown exception is [None] in an [option] result.
    - The document store is the list of the collection's documents, in
      insertion order. *)

From Stdlib Require Import Bool Arith ZArith List Ascii String Lia Permutation Sorted.
From Stdlib Require Import Floats Uint63 DecimalString.
Import ListNotations.

#[local] Set Warnings "-inexact-float,-register-all".
#[local] Open Scope string_scope.
#[local] Open Scope list_scope.
#[local] Open Scope nat_scope.

(** ** JavaScript strings *)

Module JsString.

Definition code (c : ascii) : nat := nat_of_ascii c.

(** Characters with a distinct lower-case form in the Latin-1 range:
    A-Z and the accented capitals U+00C0..U+00DE without the
    multiplication sign U+00D7. *)
Definition is_upper (c : ascii) : bool :=
  let n := code c in
  ((65 <=? n) && (n <=? 90)) || ((192 <=? n) && (n <=? 222) && negb (n =? 215)).

Definition lower_char (c : ascii) : ascii :=
  if is_upper c then ascii_of_nat (code c + 32) else c.

(** [String.prototype.toLowerCase] *)
Fixpoint toLowerCase (s : string) : string :=
  match s with
  | EmptyString => EmptyString
  | String c r => String (lower_char c) (toLowerCase r)
  end.

(** [s.includes(w)]: [w] occurs in [s] as a substring. *)
Fixpoint includes (s w : string) : bool :=
  String.prefix w s ||
  match s with
  | EmptyString => false
  | String _ r => includes r w
  end.

(** White space and line terminators ([\s], and what [trim] removes). *)
Definition is_space (c : ascii) : bool :=
  let n := code c in
  ((9 <=? n) && (n <=? 13)) || (n =? 32) || (n =? 160).

(** [\w] is [[A-Za-z0-9_]]. *)
Definition is_word (c : ascii) : bool :=
  let n := code c in
  ((48 <=? n) && (n <=? 57)) || ((65 <=? n) && (n <=? 90)) ||
  (n =? 95) || ((97 <=? n) && (n <=? 122)).

Fixpoint trimStart (s : string) : string :=
  match s with
  | EmptyString => EmptyString
  | String c r => if is_space c then trimStart r else s
  end.

Fixpoint trimEnd (s : string) : string :=
  match s with
  | EmptyString => EmptyString
  | String c r =>
      match trimEnd r with
      | EmptyString => if is_space c then EmptyString else String c EmptyString
      | r' => String c r'
      end
  end.

Definition trim (s : string) : string := trimEnd (trimStart s).

(** [s.replace(/[^...]/g, '')]: the characters of the class [keep] stay. *)
Fixpoint strip (keep : ascii -> bool) (s : string) : string :=
  match s with
  | EmptyString => EmptyString
  | String c r => if keep c then String c (strip keep r) else strip keep r
  end.

(** [s.split(/[...]+/)]: the pieces between the maximal runs of separator
    characters. A run at either end leaves an empty piece there, and the
    empty string splits into one empty piece. *)
Fixpoint split_runs (sep : ascii -> bool) (s : string) : list string :=
  match s with
  | EmptyString => [EmptyString]
  | String c r =>
      if sep c then
        match r with
        | String d _ =>
            if sep d then split_runs sep r else EmptyString :: split_runs sep r
        | EmptyString => EmptyString :: split_runs sep r
        end
      else
        match split_runs sep r with
        | h :: t => String c h :: t
        | [] => [String c EmptyString]
        end
  end.

(** [a.slice(i, j)] on an array, for [0 <= i]. *)
Definition slice {A : Type} (i j : nat) (l : list A) : list A :=
  firstn (j - i) (skipn i l).

(** [a.join(sep)] *)
Definition join (sep : string) (l : list string) : string := String.concat sep l.

End JsString.

(** ** JavaScript numbers *)

Module JsMath.

#[local] Open Scope float_scope.

(** A count as the Number the arithmetic operators see. *)
Definition of_nat (n : nat) : float := PrimFloat.of_uint63 (Uint63.of_Z (Z.of_nat n)).

Definition of_Z (z : Z) : float :=
  if (z <? 0)%Z then - PrimFloat.of_uint63 (Uint63.of_Z (- z))
  else PrimFloat.of_uint63 (Uint63.of_Z z).

(** [Math.min(a, b)] *)
Definition min (a b : float) : float :=
  if is_nan a then a
  else if is_nan b then b
  else if PrimFloat.ltb a b then a
  else if PrimFloat.ltb b a then b
  else if get_sign a then a else b.

(** [Math.round(x)]: the integral Number closest to [x], the one towards
    plus infinity of two equally close; computed on the exact value
    [(-1)^s * m * 2^e] of [x]. *)
Definition round (x : float) : float :=
  match Prim2SF x with
  | S754_finite s m e =>
      if (0 <=? e)%Z then x
      else
        let den := Z.pow 2 (- e) in
        let num := if s then (- Z.pos m)%Z else Z.pos m in
        let z := ((2 * num + den) / (2 * den))%Z in
        if (z =? 0)%Z then (if s then (-0) else 0) else of_Z z
  | _ => x
  end.

(** [lo <= x <= hi] on Numbers (false on NaN). *)
Definition between (lo hi x : float) : bool :=
  PrimFloat.leb lo x && PrimFloat.leb x hi.

End JsMath.

(** ** JSON payloads *)

Inductive jsval : Type :=
| JUndefined
| JNull
| JBool (b : bool)
| JNum (x : float)
| JStr (s : string)
| JArr (items : list jsval)
| JObj (fields : list (string * jsval)).

(** [o[k]] on a parsed object: the fields are kept in a list, the first
    binding of a key is the object's. *)
Fixpoint lookup_field (k : string) (fields : list (string * jsval)) : jsval :=
  match fields with
  | [] => JUndefined
  | (k', v) :: rest => if String.eqb k k' then v else lookup_field k rest
  end.

(** [v.k] for a property name [k] that no prototype defines ([score], [label],
    [summary_text]): a TypeError on [null] and [undefined], the own property
    of an object, [undefined] on every other value. *)
Definition getProp (v : jsval) (k : string) : option jsval :=
  match v with
  | JUndefined | JNull => None
  | JObj fields => Some (lookup_field k fields)
  | _ => Some JUndefined
  end.

(** Truthiness of a value in a condition. *)
Definition truthy (v : jsval) : bool :=
  match v with
  | JUndefined | JNull => false
  | JBool b => b
  | JNum x => negb (PrimFloat.is_zero x || PrimFloat.is_nan x)
  | JStr s => negb (String.eqb s "")
  | JArr _ | JObj _ => true
  end.

(** [v === 'lit'] *)
Definition strict_eq_str (v : jsval) (lit : string) : bool :=
  match v with
  | JStr s => String.eqb s lit
  | _ => false
  end.

(** What a [fetch] of a model endpoint followed by [response.json()] can
    do: [fetch] rejects, or a response arrives with its [ok] flag and a body
    that parses ([Some]) or does not ([None]). A call that never settles has
    no outcome here. *)
Inductive HttpOutcome : Type :=
| FetchRejects
| Responded (ok : bool) (body : option jsval).


(** ** Results of the enrichment calls *)

Module Sentiment.
(** [{ sentiment, confidence }]; [confidence] is whatever value the code
    puts there, a Number on every path the model answers as expected. *)
Record t : Type := mk { sentiment : string; confidence : jsval }.
End Sentiment.

Module Enriched.
(** [{ sentiment, confidence, summary, processed }] of [processComment]. *)
Record t : Type :=
  mk { sentiment : string; confidence : jsval; summary : jsval; processed : bool }.
End Enriched.

(** A small exception monad: [None] is a thrown error. *)
Definition bind {A B : Type} (m : option A) (k : A -> option B) : option B :=
  match m with
  | Some a => k a
  | None => None
  end.

Notation "x <- m ;; k" := (bind m (fun x => k))
  (at level 61, m at next level, right associativity).

(** [try { body } catch { handler }] *)
Definition try_catch {A : Type} (body : option A) (handler : A) : A :=
  match body with
  | Some a => a
  | None => handler
  end.

(** ** services/aiProcessor.js: the local fallbacks *)

Definition positiveWords : list string :=
  ["excellent"; "good"; "great"; "amazing"; "wonderful"; "fantastic"; "love";
   "perfect"; "outstanding"; "satisfied"; "happy"].

Definition negativeWords : list string :=
  ["terrible"; "bad"; "awful"; "horrible"; "hate"; "worst"; "disappointing";
   "poor"; "unacceptable"; "frustrated"; "angry"].

(** [words.reduce((score, word) => score + (lowercaseText.includes(word) ? 1 : 0), 0)] *)
Definition keywordScore (words : list string) (lowercaseText : string) : nat :=
  fold_left
    (fun score word => score + (if JsString.includes lowercaseText word then 1 else 0))
    words 0.

(** [Math.min(0.8, 0.5 + (score * 0.1))] *)
Definition scoreConfidence (score : nat) : float :=
  JsMath.min 0.8%float (0.5 + JsMath.of_nat score * 0.1)%float.

Definition fallbackSentimentAnalysis (text : string) : Sentiment.t :=
  let lowercaseText := JsString.toLowerCase text in
  let positiveScore := keywordScore positiveWords lowercaseText in
  let negativeScore := keywordScore negativeWords lowercaseText in
  if negativeScore <? positiveScore then
    Sentiment.mk "positive" (JNum (scoreConfidence positiveScore))
  else if positiveScore <? negativeScore then
    Sentiment.mk "negative" (JNum (scoreConfidence negativeScore))
  else
    Sentiment.mk "neutral" (JNum 0.5%float).

(** The character class of [/[.!?]+/]. *)
Definition is_sentence_end (c : ascii) : bool :=
  Ascii.eqb c "." || Ascii.eqb c "!" || Ascii.eqb c "?".

(** [text.split(/[.!?]+/).filter(s => s.trim().length > 0)] *)
Definition sentencesOf (text : string) : list string :=
  filter (fun s => 0 <? String.length (JsString.trim s))
         (JsString.split_runs is_sentence_end text).

Definition fallbackSummarization (text : string) : string :=
  let sentences := sentencesOf text in
  if List.length sentences <=? 2 then text
  else (JsString.trim (JsString.join ". " (JsString.slice 0 2 sentences)) ++ ".")%string.

(** The keyword count in the specification's words: how many keywords of the
    list occur, as substrings and whatever the case, in the text. *)
Definition keywordsContained (words : list string) (text : string) : nat :=
  List.length (filter (fun w => JsString.includes (JsString.toLowerCase text) w) words).

(** ** services/aiProcessor.js: the remote calls *)

Section AIProcessor.

(** [a > b] when the operands are not both Numbers goes through the
    coercions of the language (ToPrimitive, ToNumber, string comparison) and
    can throw; that part is left to the context. *)
Variable gt_coerced : jsval -> jsval -> option bool.

Definition js_gt (a b : jsval) : option bool :=
  match a, b with
  | JNum x, JNum y => Some (PrimFloat.ltb y x)
  | _, _ => gt_coerced a b
  end.

(** [(prev, current) => (prev.score > current.score) ? prev : current] *)
Definition higherScore (prev current : jsval) : option jsval :=
  ps <- getProp prev "score" ;;
  cs <- getProp current "score" ;;
  b <- js_gt ps cs ;;
  Some (if b : bool then prev else current).

Fixpoint reduceFrom (f : jsval -> jsval -> option jsval) (acc : jsval)
         (items : list jsval) : option jsval :=
  match items with
  | [] => Some acc
  | x :: rest => acc' <- f acc x ;; reduceFrom f acc' rest
  end.

(** [items.reduce(f)] without an initial value: a TypeError on the empty
    array, the only element of a singleton without a call of [f]. *)
Definition reduce (f : jsval -> jsval -> option jsval) (items : list jsval)
  : option jsval :=
  match items with
  | [] => None
  | x :: rest => reduceFrom f x rest
  end.

(** "Map labels to our format" *)
Definition sentimentOfLabel (label : jsval) : string :=
  if strict_eq_str label "LABEL_0" then "negative"
  else if strict_eq_str label "LABEL_1" then "neutral"
  else if strict_eq_str label "LABEL_2" then "positive"
  else "neutral".

(** The statements of [analyzeSentiment] after [await response.json()]. *)
Definition sentimentOfPayload (result : jsval) : option Sentiment.t :=
  match result with
  | JArr (first :: _) =>
      match first with
      | JArr classes =>
          topSentiment <- reduce higherScore classes ;;
          confidence <- getProp topSentiment "score" ;;
          label <- getProp topSentiment "label" ;;
          Some (Sentiment.mk (sentimentOfLabel label) confidence)
      | _ => None
      end
  | _ => Some (Sentiment.mk "neutral" (JNum 0%float))
  end.

(** The [try] block of [analyzeSentiment]. *)
Definition analyzeSentiment_try (remote : HttpOutcome) : option Sentiment.t :=
  match remote with
  | FetchRejects => None
  | Responded false _ => None
  | Responded true None => None
  | Responded true (Some result) => sentimentOfPayload result
  end.

Definition analyzeSentiment (remote : HttpOutcome) (text : string) : Sentiment.t :=
  try_catch (analyzeSentiment_try remote) (fallbackSentimentAnalysis text).

(** The [try] block of [summarizeText] for a text of 100 characters or more. *)
Definition summarizeText_try (remote : HttpOutcome) (text : string) : option jsval :=
  match remote with
  | FetchRejects => None
  | Responded false _ => None
  | Responded true None => None
  | Responded true (Some result) =>
      match result with
      | JArr (first :: _) =>
          summary_text <- getProp first "summary_text" ;;
          Some (if truthy summary_text then summary_text
                else JStr (fallbackSummarization text))
      | _ => Some (JStr (fallbackSummarization text))
      end
  end.

Definition summarizeText (remote : HttpOutcome) (text : string) : jsval :=
  if String.length text <? 100 then JStr text
  else try_catch (summarizeText_try remote text) (JStr (fallbackSummarization text)).

(** [processComment] once the two promises of [Promise.all] have settled,
    each fulfilled ([Some]) or rejected ([None]). *)
Definition processComment_settled (sentimentResult : option Sentiment.t)
           (summary : option jsval) (commentText : string) : Enriched.t :=
  try_catch
    (s <- sentimentResult ;;
     m <- summary ;;
     Some (Enriched.mk (Sentiment.sentiment s) (Sentiment.confidence s) m true))
    (Enriched.mk "neutral" (JNum 0%float) (JStr commentText) false).

Definition processComment (sentimentRemote summaryRemote : HttpOutcome)
           (commentText : string) : Enriched.t :=
  processComment_settled
    (Some (analyzeSentiment sentimentRemote commentText))
    (Some (summarizeText summaryRemote commentText))
    commentText.

End AIProcessor.


(** ** models/Comment.js *)

Module Comment.
(** A document of the collection; [_id] is its storage key. *)
Record t : Type :=
  mk { _id : nat;
       commentId : string;
       originalText : string;
       summary : jsval;
       sentiment : string;
       confidence : jsval;
       processed : bool;
       uploadSession : string }.
End Comment.

(** ** services/aiProcessor.js: the word cloud *)

Definition stopWords : list string :=
  ["the"; "and"; "or"; "but"; "in"; "on"; "at"; "to"; "for"; "of"; "with"; "by";
   "from"; "up"; "about"; "into"; "through"; "during"; "before"; "after"; "above";
   "below"; "between"; "among"; "this"; "that"; "these"; "those"; "i"; "me"; "my";
   "myself"; "we"; "our"; "ours"; "ourselves"; "you"; "your"; "yours"; "yourself";
   "yourselves"; "he"; "him"; "his"; "himself"; "she"; "her"; "hers"; "herself";
   "it"; "its"; "itself"; "they"; "them"; "their"; "theirs"; "themselves"; "what";
   "which"; "who"; "whom"; "this"; "that"; "these"; "those"; "am"; "is"; "are";
   "was"; "were"; "be"; "been"; "being"; "have"; "has"; "had"; "having"; "do";
   "does"; "did"; "doing"; "a"; "an"; "the"; "and"; "but"; "if"; "or"; "because";
   "as"; "until"; "while"; "very"; "can"; "will"; "just"; "should"; "now"].

(** [set.has(k)] on the Set built from a list of strings. *)
Definition set_has (set : list string) (k : string) : bool :=
  existsb (String.eqb k) set.

Definition isStopWord (word : string) : bool :=
  set_has stopWords (JsString.toLowerCase word).

(** The character class kept by [.replace(/[^\w\s]/g, '')]. *)
Definition is_word_or_space (c : ascii) : bool :=
  JsString.is_word c || JsString.is_space c.

(** [.toLowerCase().replace(/[^\w\s]/g, '').split(/\s+/)] *)
Definition rawTokens (originalText : string) : list string :=
  JsString.split_runs JsString.is_space
    (JsString.strip is_word_or_space (JsString.toLowerCase originalText)).

(** The [words] of one comment. *)
Definition wordsOf (originalText : string) : list string :=
  filter (fun word => (3 <? String.length word) && negb (isStopWord word))
         (rawTokens originalText).

(** A JavaScript [Map] from strings to counts: its entries in insertion
    order, one per key. *)
Definition JsMap : Type := list (string * nat).

Fixpoint map_get (k : string) (m : JsMap) : option nat :=
  match m with
  | [] => None
  | (k', v) :: rest => if String.eqb k k' then Some v else map_get k rest
  end.

(** [m.set(k, v)]: a present key keeps its place, a new one goes last. *)
Fixpoint map_set (k : string) (v : nat) (m : JsMap) : JsMap :=
  match m with
  | [] => [(k, v)]
  | (k', v') :: rest =>
      if String.eqb k k' then (k', v) :: rest else (k', v') :: map_set k v rest
  end.

(** [wordCount.set(word, (wordCount.get(word) || 0) + 1)] *)
Definition countWord (wordCount : JsMap) (word : string) : JsMap :=
  map_set word
          (match map_get word wordCount with
           | Some n => n
           | None => 0
           end + 1)
          wordCount.

Module WordEntry.
(** [{ text, value }] *)
Record t : Type := mk { text : string; value : nat }.
End WordEntry.

(** [.sort((a, b) => b.value - a.value)]: the sort is stable, which fixes
    its result: an element goes before the first one of a smaller or an equal
    value among those that followed it. *)
Fixpoint insertByValue (e : WordEntry.t) (sorted : list WordEntry.t) : list WordEntry.t :=
  match sorted with
  | [] => [e]
  | x :: rest =>
      if WordEntry.value e <? WordEntry.value x then x :: insertByValue e rest
      else e :: sorted
  end.

Fixpoint sortByValueDesc (entries : list WordEntry.t) : list WordEntry.t :=
  match entries with
  | [] => []
  | e :: rest => insertByValue e (sortByValueDesc rest)
  end.

(** The [wordCount] map after the [forEach] over the comments' texts. *)
Definition wordCounts (comments : list Comment.t) : JsMap :=
  fold_left (fun wordCount comment =>
               fold_left countWord (wordsOf (Comment.originalText comment)) wordCount)
            comments [].

Definition generateWordCloud (comments : list Comment.t) : list WordEntry.t :=
  JsString.slice 0 50
    (sortByValueDesc
       (map (fun '(text, value) => WordEntry.mk text value) (wordCounts comments))).

(** ** The store *)

Definition Store : Type := list Comment.t.

(** [Comment.find({ uploadSession, processed })] *)
Definition find (uploadSession : string) (processed : bool) (store : Store) : list Comment.t :=
  filter (fun c => String.eqb (Comment.uploadSession c) uploadSession
                   && Bool.eqb (Comment.processed c) processed)
         store.

(** [Comment.countDocuments({ uploadSession })] *)
Definition countSession (uploadSession : string) (store : Store) : nat :=
  List.length (filter (fun c => String.eqb (Comment.uploadSession c) uploadSession) store).

(** [Comment.countDocuments({ uploadSession, processed: true })] *)
Definition countProcessed (uploadSession : string) (store : Store) : nat :=
  List.length (find uploadSession true store).

(** [Comment.findByIdAndUpdate(id, { sentiment, confidence, summary, processed: true })].
    The values are stored as they are given: the casts of the schema
    ([summary] to String, [confidence] to Number) are the identity on a string
    summary and on a Number confidence, and are not applied to other values. *)
Definition findByIdAndUpdate (id : nat) (result : Enriched.t) (store : Store) : Store :=
  map (fun c =>
         if Comment._id c =? id then
           Comment.mk (Comment._id c) (Comment.commentId c) (Comment.originalText c)
                      (Enriched.summary result) (Enriched.sentiment result)
                      (Enriched.confidence result) true (Comment.uploadSession c)
         else c)
      store.

(** [Comment.aggregate([{ $match: { uploadSession, processed: true } },
    { $group: { _id: '$sentiment', count: { $sum: 1 } } }])]: one group per
    sentiment value among the matched documents, with their number. *)
Definition aggregateBySentiment (uploadSession : string) (store : Store) : list (string * nat) :=
  let values := map Comment.sentiment (find uploadSession true store) in
  map (fun v => (v, count_occ string_dec values v)) (nodup string_dec values).

(** ** The comment router: the status and statistics queries *)

Module Status.
Record t : Type :=
  mk { total : nat; processed : nat; isComplete : bool; progress : float }.
End Status.

(** The [status] object of [GET /status/:uploadSession]. *)
Definition getStatus (uploadSession : string) (store : Store) : Status.t :=
  let total := countSession uploadSession store in
  let processed := countProcessed uploadSession store in
  let isComplete := (0 <? total) && (total =? processed) in
  Status.mk total processed isComplete
            (if 0 <? total
             then JsMath.round (JsMath.of_nat processed / JsMath.of_nat total * 100)%float
             else 0%float).

Module Statistics.
Record t : Type :=
  mk { total : nat; processed : nat; positive : nat; negative : nat; neutral : nat }.
End Statistics.

(** The body of [sentimentStats.forEach(stat => ...)]. *)
Definition applyStat (stats : Statistics.t) (stat : string * nat) : Statistics.t :=
  let '(_id, count) := stat in
  let '(Statistics.mk total processed positive negative neutral) := stats in
  if String.eqb _id "positive" then Statistics.mk total processed count negative neutral
  else if String.eqb _id "negative" then Statistics.mk total processed positive count neutral
  else if String.eqb _id "neutral" then Statistics.mk total processed positive negative count
  else stats.

(** The [stats] object built from the three query results. *)
Definition statsOf (total processed : nat) (sentimentStats : list (string * nat)) : Statistics.t :=
  fold_left applyStat sentimentStats (Statistics.mk total processed 0 0 0).

(** The [statistics] object of [GET /statistics/:uploadSession], when its
    three queries read one state of the store. *)
Definition getStatistics (uploadSession : string) (store : Store) : Statistics.t :=
  statsOf (countSession uploadSession store)
          (countProcessed uploadSession store)
          (aggregateBySentiment uploadSession store).

(** ** The comment router: the batch scheduler *)

(** What a run does that an observer of the store and of the clock sees. *)
Inductive Event : Type :=
| EvBatch (batch : list Comment.t)
| EvUpdate (id : nat) (fields : Enriched.t)
| EvDelay (ms : nat).

(** The surroundings of a run: what the two model endpoints do for a comment
    and whether the update of its document is rejected by the store. Reads of
    the store always answer. *)
Record World : Type :=
  { sentimentCall : Comment.t -> HttpOutcome;
    summaryCall : Comment.t -> HttpOutcome;
    updateFails : Comment.t -> bool }.

Record RunState : Type :=
  { store : Store; processedCount : nat; trace : list Event }.

Definition record (ev : Event) (st : RunState) : RunState :=
  {| store := store st; processedCount := processedCount st; trace := trace st ++ [ev] |}.

(** The answer of [POST /process/:uploadSession]. *)
Inductive ProcessResponse : Type :=
| NothingToProcess (message : string)
| Processed (message : string) (processedCount : nat).

(** The [processedCount] field of the answer, when it has one. *)
Definition reportedCount (r : ProcessResponse) : option nat :=
  match r with
  | NothingToProcess _ => None
  | Processed _ n => Some n
  end.

Definition decimal (n : nat) : string := NilEmpty.string_of_uint (Nat.to_uint n).

Section Scheduler.

Variable gt_coerced : jsval -> jsval -> option bool.
Variable world : World.

(** The callback of [batch.map]: enrich, update the document, count; a
    rejected update is caught and leaves the document and the counter as
    they were. The callbacks of a batch are run here one after the other,
    in the order of the batch. *)
Definition processOne (st : RunState) (comment : Comment.t) : RunState :=
  let result :=
    processComment gt_coerced (sentimentCall world comment) (summaryCall world comment)
                   (Comment.originalText comment) in
  if updateFails world comment then st
  else
    {| store := findByIdAndUpdate (Comment._id comment) result (store st);
       processedCount := processedCount st + 1;
       trace := trace st ++ [EvUpdate (Comment._id comment) result] |}.

(** [for (let i = ...; i < unprocessedComments.length; i += batchSize)],
    from the index [i] on; [fuel] bounds the number of iterations. *)
Fixpoint batchLoop (fuel batchSize delay : nat) (unprocessedComments : list Comment.t)
         (i : nat) (st : RunState) : option RunState :=
  if i <? List.length unprocessedComments then
    match fuel with
    | 0 => None
    | S fuel' =>
        let batch := JsString.slice i (i + batchSize) unprocessedComments in
        let st1 := fold_left processOne batch (record (EvBatch batch) st) in
        let st2 :=
          if i + batchSize <? List.length unprocessedComments
          then record (EvDelay delay) st1 else st1 in
        batchLoop fuel' batchSize delay unprocessedComments (i + batchSize) st2
    end
  else Some st.

Definition start (s : Store) : RunState :=
  {| store := s; processedCount := 0; trace := [] |}.

(** [POST /process/:uploadSession]: the state the run ends in and the answer. *)
Definition processRoute (uploadSession : string) (s : Store)
  : option (RunState * ProcessResponse) :=
  let unprocessedComments := find uploadSession false s in
  if List.length unprocessedComments =? 0 then
    Some (start s,
          NothingToProcess "No comments to process or all comments already processed")
  else
    st <- batchLoop (List.length unprocessedComments) 5 1000 unprocessedComments 0 (start s) ;;
    Some (st,
          Processed ("Processed " ++ decimal (processedCount st) ++ " comments")%string
                    (processedCount st)).

(** [processCommentsInBackground(uploadSession)]: the state the run ends in;
    its [processedCount] is the number of the closing log line. *)
Definition processCommentsInBackground (uploadSession : string) (s : Store)
  : option RunState :=
  let unprocessedComments := find uploadSession false s in
  batchLoop (List.length unprocessedComments) 3 2000 unprocessedComments 0 (start s).

End Scheduler.

(** The batches and the delays of a trace, in order. *)
Definition batchSizes (t : list Event) : list nat :=
  flat_map (fun ev => match ev with EvBatch b => [List.length b] | _ => [] end) t.

Definition delays (t : list Event) : list nat :=
  flat_map (fun ev => match ev with EvDelay ms => [ms] | _ => [] end) t.

Definition updates (t : list Event) : list nat :=
  flat_map (fun ev => match ev with EvUpdate id _ => [id] | _ => [] end) t.

Definition schedule (t : list Event) : list Event :=
  filter (fun ev => match ev with EvUpdate _ _ => false | _ => true end) t.

(** The schedule the specification describes: consecutive batches of
    [batchSize] comments, the last one possibly shorter, and a delay of
    [delay] milliseconds after each batch but the last. *)
Inductive Batched (batchSize delay : nat) : list Comment.t -> list Event -> Prop :=
| Batched_none : Batched batchSize delay [] []
| Batched_last (batch : list Comment.t) :
    batch <> [] -> List.length batch <= batchSize ->
    Batched batchSize delay batch [EvBatch batch]
| Batched_more (batch rest : list Comment.t) (evs : list Event) :
    List.length batch = batchSize -> rest <> [] ->
    Batched batchSize delay rest evs ->
    Batched batchSize delay (batch ++ rest) (EvBatch batch :: EvDelay delay :: evs).

(** ** Conditions on results and on remote answers *)

Definition validSentiment (s : string) : Prop :=
  s = "positive" \/ s = "negative" \/ s = "neutral".

Definition validConfidence (c : jsval) : Prop :=
  exists x : float, c = JNum x /\ JsMath.between 0 1 x = true.

Definition inRange (r : Enriched.t) : Prop :=
  validSentiment (Enriched.sentiment r) /\ validConfidence (Enriched.confidence r).

(** The [score] of a class of the model's answer is a Number of [0, 1]; a
    [null] class has none. *)
Definition scoreInUnit (class : jsval) : bool :=
  match getProp class "score" with
  | Some (JNum x) => JsMath.between 0 1 x
  | Some _ => false
  | None => true
  end.

(** Every per-class score the sentiment code can read from the answer is in
    [0, 1]. *)
Definition scoresInUnit (remote : HttpOutcome) : bool :=
  match remote with
  | Responded true (Some (JArr (JArr classes :: _))) => forallb scoreInUnit classes
  | _ => true
  end.

(** [v] is an array with an element. *)
Definition nonEmptyArray (v : jsval) : bool :=
  match v with
  | JArr (_ :: _) => true
  | _ => false
  end.

(** The failures of the sentiment call that end in the [catch] block. *)
Definition sentimentCallThrows (remote : HttpOutcome) : bool :=
  match remote with
  | FetchRejects => true
  | Responded false _ => true
  | Responded true None => true
  | Responded true (Some (JArr (first :: _))) => negb (nonEmptyArray first)
  | Responded true (Some _) => false
  end.

(** ** Quantities the properties are stated with *)

(** [round(100 * processed / total)] on the exact quotient, the nearest
    integer and the upper one of two equally near: the progress of the
    specification. *)
Definition roundedPercent (processed total : nat) : Z :=
  ((2 * (100 * Z.of_nat processed) + Z.of_nat total) / (2 * Z.of_nat total))%Z.

(** The number of processed comments of a session with a given sentiment. *)
Definition countSentiment (uploadSession value : string) (s : Store) : nat :=
  List.length
    (filter (fun c => String.eqb (Comment.sentiment c) value) (find uploadSession true s)).


(** One step of the [forEach] of the statistics route, seen from the field
    of the sentiment [value]. *)
Definition pickCount (value : string) (acc : nat) (g : string * nat) : nat :=
  if String.eqb (fst g) value then snd g else acc.

(** Every word the word cloud counts, over all the comments, in order. *)
Definition allWords (comments : list Comment.t) : list string :=
  flat_map (fun c => wordsOf (Comment.originalText c)) comments.

(** The map [m] holds the number of occurrences of each word of [ws], and
    nothing else. *)
Definition Counts (ws : list string) (m : JsMap) : Prop :=
  NoDup (map fst m)
  /\ forall k, map_get k m
               = if count_occ string_dec ws k =? 0 then None
                 else Some (count_occ string_dec ws k).

(** The characters of a string. *)
Definition chars (s : string) : list ascii := list_ascii_of_string s.

(** ** Example inputs *)

Definition noCoercion : jsval -> jsval -> option bool := fun _ _ => None.

Definition class (label : string) (score : float) : jsval :=
  JObj [("label", JStr label); ("score", JNum score)].

Definition threeClasses : HttpOutcome :=
  Responded true
    (Some (JArr [JArr [class "LABEL_0" 0.05%float; class "LABEL_1" 0.15%float;
                       class "LABEL_2" 0.8%float]])).

Definition comment (id : nat) (text : string) (processed : bool) : Comment.t :=
  Comment.mk id (decimal id) text (JStr "") "neutral" (JNum 0%float) processed "s1".

Definition offline : World :=
  {| sentimentCall := fun _ => FetchRejects;
     summaryCall := fun _ => FetchRejects;
     updateFails := fun _ => false |}.

Definition sevenUnprocessed : Store :=
  map (fun id => comment id "good" false) (seq 1 7).

Definition allProcessed : Store :=
  [comment 1 "good" true; comment 2 "bad" true].

(** 200 comments of one session, the first 29 of them processed. *)
Definition twoHundred : Store :=
  map (fun id => comment id "good" (id <? 29)) (seq 0 200).

Definition sampleComments : list Comment.t :=
  [comment 1 "The service was GREAT, really great service!" true;
   comment 2 "Great people; they should have more of them." true].

(** ** The comment router: the intake of an upload *)

(** [mapHeaders]: [header.toLowerCase().trim().replace(/[^a-z0-9]/g, '_')] *)
Definition is_lower_alnum (c : ascii) : bool :=
  let n := JsString.code c in
  ((48 <=? n) && (n <=? 57)) || ((97 <=? n) && (n <=? 122)).

Fixpoint replaceOutside (keep : ascii -> bool) (by_ : ascii) (s : string) : string :=
  match s with
  | EmptyString => EmptyString
  | String c r =>
      String (if keep c then c else by_) (replaceOutside keep by_ r)
  end.

Definition mapHeaders (header : string) : string :=
  replaceOutside is_lower_alnum "_" (JsString.trim (JsString.toLowerCase header)).

(** A row as the CSV parser emits it: the cells by (mapped) header, one
    binding per header. *)
Definition Row : Type := list (string * string).

Fixpoint rowGet (k : string) (row : Row) : option string :=
  match row with
  | [] => None
  | (k', v) :: rest => if String.eqb k k' then Some v else rowGet k rest
  end.

(** [cell || other] on a cell that is a string or [undefined]. *)
Definition orElse (cell : option string) (other : string) : string :=
  match cell with
  | Some v => if String.eqb v "" then other else v
  | None => other
  end.

Module NewComment.
(** What the upload handler pushes for a row and hands to [insertMany]. *)
Record t : Type :=
  mk { commentId : string; originalText : string; uploadSession : string }.
End NewComment.

(** The [on('data', row => ...)] handler of the upload route. *)
Definition onData (uploadSession : string) (comments : list NewComment.t) (row : Row)
  : list NewComment.t :=
  let commentId :=
    orElse (rowGet "comment_id" row)
           (orElse (rowGet "commentid" row) (orElse (rowGet "id" row) "")) in
  let commentText :=
    orElse (rowGet "comment_text" row)
           (orElse (rowGet "commenttext" row)
                   (orElse (rowGet "text" row) (orElse (rowGet "comment" row) ""))) in
  if negb (String.eqb commentText "") && negb (String.eqb (JsString.trim commentText) "")
  then
    comments
      ++ [NewComment.mk
            (if String.eqb commentId ""
             then ("comment_" ++ decimal (List.length comments + 1))%string
             else commentId)
            (JsString.trim commentText)
            uploadSession]
  else comments.

(** The [comments] array once the parser has emitted every row. *)
Definition parsedComments (uploadSession : string) (rows : list Row) : list NewComment.t :=
  fold_left (onData uploadSession) rows [].

(** The answer of [POST /upload] for an uploaded file that parses into
    [rows], and the comments handed to [Comment.insertMany], which is taken to
    store them all. *)
Inductive UploadResponse : Type :=
| UploadRejected (status : nat) (error : string)
| UploadAccepted (message : string) (uploadSession : string) (totalComments : nat).

Definition uploadRoute (uploadSession : string) (rows : list Row)
  : UploadResponse * list NewComment.t :=
  let comments := parsedComments uploadSession rows in
  if List.length comments =? 0 then
    (UploadRejected 400 "No valid comments found in CSV file", [])
  else
    (UploadAccepted
       ("Successfully uploaded " ++ decimal (List.length comments) ++ " comments")%string
       uploadSession (List.length comments),
     comments).

(** The text a row carries for the comment, as [onData] reads it. *)
Definition rowText (row : Row) : string :=
  orElse (rowGet "comment_text" row)
         (orElse (rowGet "commenttext" row)
                 (orElse (rowGet "text" row) (orElse (rowGet "comment" row) ""))).

(** A row whose text [onData] keeps. *)
Definition hasText (row : Row) : bool :=
  negb (String.eqb (rowText row) "") && negb (String.eqb (JsString.trim (rowText row)) "").

(** What every comment of an intake satisfies. *)
Definition wellFormed (uploadSession : string) (c : NewComment.t) : Prop :=
  NewComment.originalText c <> ""
  /\ JsString.trim (NewComment.originalText c) = NewComment.originalText c
  /\ NewComment.commentId c <> ""
  /\ NewComment.uploadSession c = uploadSession.

(** The characters a mapped header is made of. *)
Definition is_header_char (c : ascii) : bool := is_lower_alnum c || Ascii.eqb c "_".

(** ** The comment router: the word cloud route *)

(** The [wordCloudData] of [GET /wordcloud/:uploadSession]. *)
Definition wordCloudRoute (uploadSession : string) (store : Store) : list WordEntry.t :=
  generateWordCloud (find uploadSession true store).

(** ** More quantities the properties are stated with *)

(** The summary a remote answer carries: the [summary_text] of the first
    element of an array payload, when it is truthy. *)
Definition remoteSummary (remote : HttpOutcome) : option jsval :=
  match remote with
  | Responded true (Some (JArr (first :: _))) =>
      match getProp first "summary_text" with
      | Some v => if truthy v then Some v else None
      | None => None
      end
  | _ => None
  end.

(** Every class of the answer is an object-like value whose [score] is a
    Number of [0, 1]. *)
Definition numericScore (class : jsval) : bool :=
  match getProp class "score" with
  | Some (JNum x) => JsMath.between 0 1 x
  | _ => false
  end.

(** The document [d] with the fields an update writes from [result]. *)
Definition withResult (result : Enriched.t) (d : Comment.t) : Comment.t :=
  Comment.mk (Comment._id d) (Comment.commentId d) (Comment.originalText d)
             (Enriched.summary result) (Enriched.sentiment result)
             (Enriched.confidence result) true (Comment.uploadSession d).

(** The enrichment of the document [d] in the world [world]. *)
Definition enrichment (gt_coerced : jsval -> jsval -> option bool) (world : World)
           (d : Comment.t) : Enriched.t :=
  processComment gt_coerced (sentimentCall world d) (summaryCall world d)
                 (Comment.originalText d).

(** A run picks [d] up and its update goes through. *)
Definition enrichedBy (world : World) (uploadSession : string) (d : Comment.t) : bool :=
  String.eqb (Comment.uploadSession d) uploadSession
  && Bool.eqb (Comment.processed d) false
  && negb (updateFails world d).

(** The store a run over the session leaves, document by document. *)
Definition storeAfterRun (gt_coerced : jsval -> jsval -> option bool) (world : World)
           (uploadSession : string) (s : Store) : Store :=
  map (fun d => if enrichedBy world uploadSession d
                then withResult (enrichment gt_coerced world d) d else d)
      s.

(** What the callback of a batch does to the store for the comment [c]. *)
Definition updateStep (gt_coerced : jsval -> jsval -> option bool) (world : World)
           (s : Store) (c : Comment.t) : Store :=
  if updateFails world c then s
  else findByIdAndUpdate (Comment._id c) (enrichment gt_coerced world c) s.

(** The same, seen from one document [d] of the store. *)
Definition touch (gt_coerced : jsval -> jsval -> option bool) (world : World)
           (d c : Comment.t) : Comment.t :=
  if updateFails world c then d
  else if Comment._id d =? Comment._id c
       then withResult (enrichment gt_coerced world c) d else d.

(** The comments of a snapshot whose update goes through. *)
Definition updatable (world : World) (comments : list Comment.t) : list Comment.t :=
  filter (fun c => negb (updateFails world c)) comments.

(** What a run never changes in a document. *)
Definition identity (d : Comment.t) : nat * string * string * string :=
  (Comment._id d, Comment.commentId d, Comment.originalText d, Comment.uploadSession d).

(** Entries in the order the word cloud lists them: no value goes up. *)
Definition valueGe (a b : WordEntry.t) : Prop := WordEntry.value b <= WordEntry.value a.

(** The characters and the pieces of a split, counted with one separator
    per piece. *)
Definition weight (pieces : list string) : nat :=
  list_sum (map (fun p => String.length p + 1) pieces).

(** The number of places of [s] at which [w] occurs. *)
Fixpoint occurrences (s w : string) : nat :=
  (if String.prefix w s then 1 else 0)
  + match s with
    | EmptyString => 0
    | String _ r => occurrences r w
    end.

(** The count of occurrences of the keywords of a list in the lower-cased
    text: every occurrence of every keyword counts. *)
Definition keywordOccurrences (words : list string) (text : string) : nat :=
  list_sum (map (occurrences (JsString.toLowerCase text)) words).

(** [min(0.8, 0.5 + 0.1 * count)] in decimal: 0.5, 0.6, 0.7, and 0.8 from
    three on. *)
Definition cappedConfidence (count : nat) : float :=
  match count with
  | 0 => 0.5%float
  | 1 => 0.6%float
  | 2 => 0.7%float
  | _ => 0.8%float
  end.

(** The answer of a scorer that counts occurrences. *)
Definition scoreByOccurrences (text : string) : Sentiment.t :=
  let p := keywordOccurrences positiveWords text in
  let n := keywordOccurrences negativeWords text in
  if n <? p then Sentiment.mk "positive" (JNum (cappedConfidence p))
  else if p <? n then Sentiment.mk "negative" (JNum (cappedConfidence n))
  else Sentiment.mk "neutral" (JNum 0.5%float).

(** The characters of a token: [a-z], [0-9] and the underscore. *)
Definition is_token_char (c : ascii) : bool :=
  let n := JsString.code c in
  ((48 <=? n) && (n <=? 57)) || (n =? 95) || ((97 <=? n) && (n <=? 122)).

(** [field] is one of the pieces of [line] between separators: it lies in
    [line] with no separator inside, a separator or the start of the line
    before it, and a separator or the end of the line after it. *)
Definition isField (sep : ascii -> bool) (line field : list ascii) : Prop :=
  exists before after : list ascii,
    line = before ++ field ++ after
    /\ (forall c, In c field -> sep c = false)
    /\ (before = [] \/ exists b c, before = b ++ [c] /\ sep c = true)
    /\ (after = [] \/ exists c a, after = c :: a /\ sep c = true).

(** The characters of the text, each in lower case, without those that are
    neither word characters nor white space. *)
Definition normalised (text : string) : list ascii :=
  filter is_word_or_space (map JsString.lower_char (chars text)).

(** [token] stands between white space in the normalised text. *)
Definition isTokenOf (token text : string) : Prop :=
  isField JsString.is_space (normalised text) (chars token).

(** The [stats] object when the three queries of the statistics route read
    the stores [sTotal], [sProcessed] and [sGroups]. *)
Definition getStatisticsAt (uploadSession : string) (sTotal sProcessed sGroups : Store)
  : Statistics.t :=
  statsOf (countSession uploadSession sTotal)
          (countProcessed uploadSession sProcessed)
          (aggregateBySentiment uploadSession sGroups).

(** The summary a remote answer carries, if any, is a string. *)
Definition summaryIsString (remote : HttpOutcome) : bool :=
  match remoteSummary remote with
  | Some (JStr _) => true
  | Some _ => false
  | None => true
  end.

Definition sampleRows : list Row :=
  [[("comment_id", "7"); ("comment_text", "  Loved it  ")];
   [("id", ""); ("text", "Too slow")];
   [("comment", "   ")]].

(** ** Strings: helper lemmas *)

Section KeywordScore.

Variable lowercaseText : string.

Let hit (word : string) : bool := JsString.includes lowercaseText word.

Lemma keywordScore_from (words : list string) (acc : nat) :
  fold_left (fun score word => score + (if hit word then 1 else 0)) words acc
  = acc + List.length (filter hit words).
Proof.
  revert acc; induction words as [|w ws IH]; intros acc; simpl.
  - lia.
  - rewrite IH. destruct (hit w); simpl; lia.
Qed.

Lemma keywordScore_filter (words : list string) :
  keywordScore words lowercaseText = List.length (filter hit words).
Proof. unfold keywordScore. apply (keywordScore_from words 0). Qed.

Lemma keywordScore_le (words : list string) :
  keywordScore words lowercaseText <= List.length words.
Proof.
  rewrite keywordScore_filter.
  induction words as [|w ws IH]; simpl; [lia|].
  destruct (hit w); simpl; lia.
Qed.

End KeywordScore.

Lemma keywordScore_contained (words : list string) (text : string) :
  keywordScore words (JsString.toLowerCase text) = keywordsContained words text.
Proof. apply keywordScore_filter. Qed.

Lemma scoreConfidence_in_unit (n : nat) :
  n <= 11 -> JsMath.between 0 1 (scoreConfidence n) = true.
Proof.
  intros H.
  do 12 (destruct n as [|n]; [vm_compute; reflexivity|]).
  lia.
Qed.

Lemma fallbackSentimentAnalysis_in_range (text : string) :
  validSentiment (Sentiment.sentiment (fallbackSentimentAnalysis text))
  /\ validConfidence (Sentiment.confidence (fallbackSentimentAnalysis text)).
Proof.
  unfold fallbackSentimentAnalysis, validSentiment, validConfidence.
  set (t := JsString.toLowerCase text).
  pose proof (keywordScore_le t positiveWords) as Hp.
  pose proof (keywordScore_le t negativeWords) as Hn.
  change (List.length positiveWords) with 11 in Hp.
  change (List.length negativeWords) with 11 in Hn.
  destruct (keywordScore negativeWords t <? keywordScore positiveWords t); simpl.
  - split; [auto|]. eexists; split; [reflexivity|]. now apply scoreConfidence_in_unit.
  - destruct (keywordScore positiveWords t <? keywordScore negativeWords t); simpl.
    + split; [auto|]. eexists; split; [reflexivity|]. now apply scoreConfidence_in_unit.
    + split; [auto|]. eexists; split; reflexivity.
Qed.

(** ** The remote sentiment path: helper lemmas *)

Section RemoteSentiment.

Variable gt_coerced : jsval -> jsval -> option bool.

Lemma higherScore_picks (prev current top : jsval) :
  higherScore gt_coerced prev current = Some top -> top = prev \/ top = current.
Proof.
  unfold higherScore, bind.
  destruct (getProp prev "score"); [|discriminate].
  destruct (getProp current "score"); [|discriminate].
  destruct (js_gt gt_coerced j j0) as [[|]|]; intros H; inversion H; auto.
Qed.

Lemma reduceFrom_picks (items : list jsval) :
  forall acc top,
    reduceFrom (higherScore gt_coerced) acc items = Some top ->
    top = acc \/ In top items.
Proof.
  induction items as [|x rest IH]; intros acc top; simpl.
  - intros H; inversion H; auto.
  - unfold bind. destruct (higherScore gt_coerced acc x) as [acc'|] eqn:E; [|discriminate].
    intros H. apply IH in H. apply higherScore_picks in E.
    destruct H as [->|H]; [destruct E as [->| ->]|]; auto.
Qed.

Lemma reduce_picks (classes : list jsval) (top : jsval) :
  reduce (higherScore gt_coerced) classes = Some top -> In top classes.
Proof.
  destruct classes as [|x rest]; simpl; [discriminate|].
  intros H. apply reduceFrom_picks in H.
  destruct H as [->|H]; [left; reflexivity|right; assumption].
Qed.

Lemma sentimentOfLabel_valid (label : jsval) : validSentiment (sentimentOfLabel label).
Proof.
  unfold sentimentOfLabel, validSentiment.
  destruct (strict_eq_str label "LABEL_0"); auto.
  destruct (strict_eq_str label "LABEL_1"); auto.
  destruct (strict_eq_str label "LABEL_2"); auto.
Qed.

Lemma sentimentOfPayload_in_range (result : jsval) (r : Sentiment.t) :
  scoresInUnit (Responded true (Some result)) = true ->
  sentimentOfPayload gt_coerced result = Some r ->
  validSentiment (Sentiment.sentiment r) /\ validConfidence (Sentiment.confidence r).
Proof.
  intros Hs Hr.
  assert (Hdefault : Some (Sentiment.mk "neutral" (JNum 0%float)) = Some r ->
                     validSentiment (Sentiment.sentiment r)
                     /\ validConfidence (Sentiment.confidence r)).
  { intros H; inversion H; subst; simpl. split.
    - unfold validSentiment; auto.
    - exists 0%float; split; reflexivity. }
  destruct result as [| | | | |items|]; simpl in Hr; auto.
  destruct items as [|first rest]; auto.
  destruct first as [| | | | |classes|]; try discriminate.
  simpl in Hs. unfold bind in Hr.
  destruct (reduce (higherScore gt_coerced) classes) as [top|] eqn:Etop; [|discriminate].
  apply reduce_picks in Etop.
  rewrite forallb_forall in Hs. specialize (Hs top Etop).
  unfold scoreInUnit in Hs.
  destruct (getProp top "score") as [conf|]; [|discriminate].
  destruct (getProp top "label") as [label|]; [|discriminate].
  inversion Hr; subst; simpl. split.
  - apply sentimentOfLabel_valid.
  - destruct conf; try discriminate. eexists; split; [reflexivity|assumption].
Qed.

Lemma analyzeSentiment_in_range (remote : HttpOutcome) (text : string) :
  scoresInUnit remote = true ->
  validSentiment (Sentiment.sentiment (analyzeSentiment gt_coerced remote text))
  /\ validConfidence (Sentiment.confidence (analyzeSentiment gt_coerced remote text)).
Proof.
  intros Hs. unfold analyzeSentiment, try_catch.
  destruct (analyzeSentiment_try gt_coerced remote) as [r|] eqn:E.
  - destruct remote as [|[|] [result|]]; simpl in E; try discriminate.
    now apply (sentimentOfPayload_in_range result).
  - apply fallbackSentimentAnalysis_in_range.
Qed.

Lemma analyzeSentiment_catch (remote : HttpOutcome) (text : string) :
  analyzeSentiment_try gt_coerced remote = None ->
  analyzeSentiment gt_coerced remote text = fallbackSentimentAnalysis text.
Proof. unfold analyzeSentiment. now intros ->. Qed.

Lemma sentimentCallThrows_try (remote : HttpOutcome) :
  sentimentCallThrows remote = true -> analyzeSentiment_try gt_coerced remote = None.
Proof.
  destruct remote as [|[|] [result|]]; simpl; auto.
  destruct result as [| | | | |[|first rest]|]; try discriminate.
  destruct first as [| | | | |[|c classes]|]; simpl; auto; discriminate.
Qed.

End RemoteSentiment.

(** ** The enrichment client *)

(** C1. For every text, the result of [processComment] has a sentiment that is
    one of positive, negative and neutral and a confidence that is a Number of
    [0, 1], provided the per-class scores of a remote answer are in [0, 1].
    It holds whatever the two remote calls do (first part), and on each way
    through [processComment]: with the result of the local fallback scorer
    (second part) and when one of the two promises rejects (third part). *)
Theorem processComment_in_range :
  forall (gt_coerced : jsval -> jsval -> option bool)
         (sentimentRemote summaryRemote : HttpOutcome) (text : string),
    scoresInUnit sentimentRemote = true ->
    inRange (processComment gt_coerced sentimentRemote summaryRemote text)
    /\ (forall summary : option jsval,
           inRange (processComment_settled
                      (Some (fallbackSentimentAnalysis text)) summary text))
    /\ (forall (s : option Sentiment.t) (summary : option jsval),
           s = None \/ summary = None ->
           inRange (processComment_settled s summary text)).
Proof.
  intros gt sr mr text Hs.
  assert (Habsorbed : inRange (Enriched.mk "neutral" (JNum 0%float) (JStr text) false)).
  { split; simpl; [unfold validSentiment; auto|]. exists 0%float; split; reflexivity. }
  split; [|split].
  - unfold processComment, processComment_settled, inRange; simpl.
    now apply analyzeSentiment_in_range.
  - intros [m|]; unfold processComment_settled; simpl; [|exact Habsorbed].
    apply fallbackSentimentAnalysis_in_range.
  - intros s m [-> | ->]; unfold processComment_settled; simpl; [exact Habsorbed|].
    destruct s; exact Habsorbed.
Qed.

Lemma processComment_in_range_witness :
  scoresInUnit threeClasses = true
  /\ inRange (processComment noCoercion threeClasses FetchRejects "Great service, thanks").
Proof.
  split; [reflexivity|].
  exact (proj1 (processComment_in_range noCoercion threeClasses FetchRejects
                  "Great service, thanks" eq_refl)).
Defined.

(** C2, as the code has it. For every text, the sentiment call answers with
    the local keyword scorer when [fetch] rejects, when the response is not
    2xx, when its body does not parse, and when the payload is an array whose
    first element is not an array with an element, and more generally whenever
    the [try] block throws. A payload that is not an array, or is the empty
    array, does not reach the scorer: the answer is neutral with confidence
    0 then. *)
Theorem analyzeSentiment_failure_kinds :
  forall (gt_coerced : jsval -> jsval -> option bool) (remote : HttpOutcome) (text : string),
    (sentimentCallThrows remote = true ->
     analyzeSentiment gt_coerced remote text = fallbackSentimentAnalysis text)
    /\ (analyzeSentiment_try gt_coerced remote = None ->
        analyzeSentiment gt_coerced remote text = fallbackSentimentAnalysis text)
    /\ (forall payload : jsval,
           remote = Responded true (Some payload) -> nonEmptyArray payload = false ->
           analyzeSentiment gt_coerced remote text
           = Sentiment.mk "neutral" (JNum 0%float)).
Proof.
  intros gt remote text. split; [|split].
  - intros H. apply analyzeSentiment_catch. now apply sentimentCallThrows_try.
  - apply analyzeSentiment_catch.
  - intros payload -> H.
    destruct payload as [| | | | |[|first rest]|]; try discriminate; reflexivity.
Qed.

Lemma analyzeSentiment_failure_kinds_witness :
  analyzeSentiment noCoercion (Responded false None) "good" = fallbackSentimentAnalysis "good"
  /\ analyzeSentiment noCoercion (Responded true (Some (JArr [JNull]))) "good"
     = fallbackSentimentAnalysis "good"
  /\ analyzeSentiment noCoercion (Responded true (Some (JArr []))) "good"
     = Sentiment.mk "neutral" (JNum 0%float).
Proof.
  split; [|split].
  - exact (proj1 (analyzeSentiment_failure_kinds noCoercion (Responded false None) "good")
                 eq_refl).
  - exact (proj1 (analyzeSentiment_failure_kinds noCoercion
                    (Responded true (Some (JArr [JNull]))) "good") eq_refl).
  - exact (proj2 (proj2 (analyzeSentiment_failure_kinds noCoercion
                           (Responded true (Some (JArr []))) "good"))
                 (JArr []) eq_refl eq_refl).
Defined.

(** C2 as stated fails: a malformed payload that is an object (here the
    empty one) gives neutral with confidence 0 for the text "good", where the
    local scorer gives positive with confidence 0.6. *)
Lemma analyzeSentiment_malformed_payload_not_fallback :
  analyzeSentiment noCoercion (Responded true (Some (JObj []))) "good"
  = Sentiment.mk "neutral" (JNum 0%float)
  /\ fallbackSentimentAnalysis "good" = Sentiment.mk "positive" (JNum 0.6%float)
  /\ analyzeSentiment noCoercion (Responded true (Some (JObj []))) "good"
     <> fallbackSentimentAnalysis "good".
Proof.
  split; [reflexivity|]. split; [vm_compute; reflexivity|].
  vm_compute. discriminate.
Qed.

Lemma scoreConfidence_capped (n : nat) :
  n <= 11 -> scoreConfidence n = cappedConfidence n.
Proof.
  intros H.
  do 12 (destruct n as [|n]; [vm_compute; reflexivity|]).
  lia.
Qed.

(** C3, as the code has it. The fallback scorer counts, for each list, the
    keywords of the list that occur in the lower-cased text, each keyword
    once however often it occurs; it answers the sentiment whose count is
    strictly greater, with confidence 0.6 for a count of 1, 0.7 for 2 and 0.8
    from 3 on (that is [min(0.8, 0.5 + 0.1 * count)]), and neutral with
    confidence 0.5 on a tie; a text in which exactly two positive keywords
    and no negative one occur gets positive with confidence 0.7. *)
Theorem fallbackSentimentAnalysis_distinct_keywords :
  forall text : string,
    let p := keywordsContained positiveWords text in
    let n := keywordsContained negativeWords text in
    (n < p ->
     fallbackSentimentAnalysis text
     = Sentiment.mk "positive" (JNum (cappedConfidence p)))
    /\ (p < n ->
        fallbackSentimentAnalysis text
        = Sentiment.mk "negative" (JNum (cappedConfidence n)))
    /\ (p = n ->
        fallbackSentimentAnalysis text = Sentiment.mk "neutral" (JNum 0.5%float))
    /\ (p = 2 -> n = 0 ->
        fallbackSentimentAnalysis text = Sentiment.mk "positive" (JNum 0.7%float)).
Proof.
  intros text p n.
  assert (Hp : keywordScore positiveWords (JsString.toLowerCase text) = p)
    by apply keywordScore_contained.
  assert (Hn : keywordScore negativeWords (JsString.toLowerCase text) = n)
    by apply keywordScore_contained.
  assert (Hp11 : p <= 11).
  { rewrite <- Hp. apply (keywordScore_le (JsString.toLowerCase text) positiveWords). }
  assert (Hn11 : n <= 11).
  { rewrite <- Hn. apply (keywordScore_le (JsString.toLowerCase text) negativeWords). }
  unfold fallbackSentimentAnalysis. rewrite Hp, Hn. clearbody p n. clear Hp Hn.
  split; [|split; [|split]].
  - intros H. apply Nat.ltb_lt in H. rewrite H.
    now rewrite scoreConfidence_capped.
  - intros H. assert (H' : (n <? p) = false) by (apply Nat.ltb_ge; lia).
    apply Nat.ltb_lt in H. rewrite H', H. now rewrite scoreConfidence_capped.
  - intros ->. now rewrite Nat.ltb_irrefl.
  - intros -> ->. vm_compute. reflexivity.
Qed.

Lemma fallbackSentimentAnalysis_distinct_keywords_witness :
  keywordsContained positiveWords "Good, good and GREAT; excellent, amazing!" = 4
  /\ fallbackSentimentAnalysis "Good, good and GREAT; excellent, amazing!"
     = Sentiment.mk "positive" (JNum 0.8%float).
Proof.
  split; [reflexivity|].
  exact (proj1 (fallbackSentimentAnalysis_distinct_keywords
                  "Good, good and GREAT; excellent, amazing!")
               (Nat.lt_0_succ 3)).
Defined.

(** C3 as stated fails: "good good" holds two occurrences of a positive
    keyword and none of a negative one, which by the count of occurrences
    gives positive with confidence 0.7; the code counts the keyword once and
    answers with confidence 0.6. *)
Lemma fallbackSentimentAnalysis_counts_keywords_once :
  keywordOccurrences positiveWords "good good" = 2
  /\ keywordOccurrences negativeWords "good good" = 0
  /\ scoreByOccurrences "good good" = Sentiment.mk "positive" (JNum 0.7%float)
  /\ fallbackSentimentAnalysis "good good" = Sentiment.mk "positive" (JNum 0.6%float)
  /\ fallbackSentimentAnalysis "good good" <> scoreByOccurrences "good good".
Proof.
  repeat split; try (vm_compute; reflexivity).
  vm_compute. discriminate.
Qed.

(** A keyword counts once however often it occurs: the score of "good good"
    is 1, and the confidence 0.6. *)
Lemma fallbackSentimentAnalysis_repeated_keyword :
  keywordsContained positiveWords "good good" = 1
  /\ fallbackSentimentAnalysis "good good" = Sentiment.mk "positive" (JNum 0.6%float).
Proof. split; vm_compute; reflexivity. Qed.

(** ** Splitting: helper lemmas *)

Lemma split_runs_chars (sep : ascii -> bool) (s piece : string) (c : ascii) :
  In piece (JsString.split_runs sep s) -> In c (chars piece) ->
  In c (chars s) /\ sep c = false.
Proof.
  revert piece. induction s as [|a r IH]; intros piece; simpl.
  - intros [<-|[]]. simpl. tauto.
  - destruct (sep a) eqn:Ea.
    + assert (Hrec : In piece (JsString.split_runs sep r) -> In c (chars piece) ->
                     (a = c \/ In c (chars r)) /\ sep c = false).
      { intros Hp Hc. destruct (IH piece Hp Hc); auto. }
      assert (Hcons : In piece (EmptyString :: JsString.split_runs sep r) ->
                      In c (chars piece) ->
                      (a = c \/ In c (chars r)) /\ sep c = false).
      { intros [<-|Hp]; [simpl; tauto|auto]. }
      destruct r as [|d r']; [exact Hcons|].
      destruct (sep d); [exact Hrec|exact Hcons].
    + destruct (JsString.split_runs sep r) as [|h t] eqn:Es.
      * intros [<-|[]]. simpl. intros [<-|[]]. auto.
      * intros [<-|Hp]; simpl.
        -- intros [<-|Hc]; [auto|]. destruct (IH h (or_introl eq_refl) Hc); auto.
        -- intros Hc. destruct (IH piece (or_intror Hp) Hc); auto.
Qed.

Lemma sentencesOf_In (text s : string) :
  In s (sentencesOf text) <->
  In s (JsString.split_runs is_sentence_end text) /\ JsString.trim s <> "".
Proof.
  unfold sentencesOf. rewrite filter_In.
  destruct (JsString.trim s); simpl; split; intros [H1 H2]; split;
    auto; try discriminate; congruence.
Qed.

(** C6, as the code has it. The fallback summarizer splits the text at the
    runs of '.', '!' and '?' and keeps the pieces that are not empty once
    trimmed; with at most two such sentences it returns the text unchanged;
    otherwise it joins the first two with ". ", trims the ends of the result
    and appends a period. The sentences themselves are not trimmed. *)
Theorem fallbackSummarization_first_two :
  forall text : string,
    (forall s : string,
        In s (sentencesOf text) <->
        In s (JsString.split_runs is_sentence_end text) /\ JsString.trim s <> "")
    /\ (forall (s : string) (c : ascii),
           In s (sentencesOf text) -> In c (chars s) -> is_sentence_end c = false)
    /\ (List.length (sentencesOf text) <= 2 -> fallbackSummarization text = text)
    /\ (forall (s1 s2 s3 : string) (rest : list string),
           sentencesOf text = s1 :: s2 :: s3 :: rest ->
           fallbackSummarization text = (JsString.trim (s1 ++ ". " ++ s2) ++ ".")%string).
Proof.
  intros text. split; [|split; [|split]].
  - intros s. apply sentencesOf_In.
  - intros s c H. apply sentencesOf_In in H.
    now apply (split_runs_chars is_sentence_end text s c).
  - unfold fallbackSummarization. intros H. apply Nat.leb_le in H. now rewrite H.
  - unfold fallbackSummarization. intros s1 s2 s3 rest ->. reflexivity.
Qed.

Lemma fallbackSummarization_first_two_witness :
  fallbackSummarization "A. B. C." = "A.  B.".
Proof.
  exact (proj2 (proj2 (proj2 (fallbackSummarization_first_two "A. B. C.")))
               "A" " B" " C" [] eq_refl).
Defined.

(** C6 as stated fails on its own example: the second sentence keeps the
    space that followed the first period, so two spaces separate the
    sentences of the summary. *)
Lemma fallbackSummarization_three_sentences_not_single_space :
  fallbackSummarization "A. B. C." = "A.  B."
  /\ fallbackSummarization "A. B. C." <> "A. B.".
Proof. split; [reflexivity|]. vm_compute. discriminate. Qed.

(** ** The batch loop: helper lemmas *)

Lemma schedule_app (t1 t2 : list Event) : schedule (t1 ++ t2) = schedule t1 ++ schedule t2.
Proof. apply filter_app. Qed.

Lemma batchSizes_schedule (t : list Event) : batchSizes (schedule t) = batchSizes t.
Proof.
  induction t as [|[b|id r|ms] t IH]; simpl; auto. now rewrite IH.
Qed.

Lemma delays_schedule (t : list Event) : delays (schedule t) = delays t.
Proof.
  induction t as [|[b|id r|ms] t IH]; simpl; auto. now rewrite IH.
Qed.

Lemma updates_app (t1 t2 : list Event) : updates (t1 ++ t2) = updates t1 ++ updates t2.
Proof. apply flat_map_app. Qed.

Lemma Batched_nil (batchSize delay : nat) (evs : list Event) :
  Batched batchSize delay [] evs -> evs = [].
Proof.
  intros H. remember [] as l eqn:El.
  destruct H as [|batch Hne Hlen|batch rest evs Hlen Hne H]; auto.
  - congruence.
  - apply app_eq_nil in El. tauto.
Qed.

Section BatchLoop.

Variable gt_coerced : jsval -> jsval -> option bool.
Variable world : World.

Lemma processOne_schedule (st : RunState) (c : Comment.t) :
  schedule (trace (processOne gt_coerced world st c)) = schedule (trace st).
Proof.
  unfold processOne. destruct (updateFails world c); simpl; auto.
  rewrite schedule_app. simpl. apply app_nil_r.
Qed.

Lemma processBatch_schedule (batch : list Comment.t) :
  forall st,
    schedule (trace (fold_left (processOne gt_coerced world) batch st))
    = schedule (trace st).
Proof.
  induction batch as [|c batch IH]; intros st; simpl; auto.
  rewrite IH. apply processOne_schedule.
Qed.

(** With a positive batch size the loop ends before its fuel does, and
    what it adds to the schedule is the batching of the comments from [i]. *)
Lemma batchLoop_batched (batchSize delay : nat) (comments : list Comment.t) :
  0 < batchSize ->
  forall fuel i st,
    List.length comments - i <= fuel ->
    exists st' evs,
      batchLoop gt_coerced world fuel batchSize delay comments i st = Some st'
      /\ schedule (trace st') = schedule (trace st) ++ evs
      /\ Batched batchSize delay (skipn i comments) evs.
Proof.
  intros HB. induction fuel as [|fuel IH]; intros i st Hfuel.
  - exists st, []. simpl.
    assert (H : (i <? List.length comments) = false) by (apply Nat.ltb_ge; lia).
    rewrite H, app_nil_r, skipn_all2 by lia. repeat split. constructor.
  - simpl. destruct (i <? List.length comments) eqn:Ei.
    2:{ exists st, []. apply Nat.ltb_ge in Ei.
        rewrite app_nil_r, skipn_all2 by lia. repeat split. constructor. }
    apply Nat.ltb_lt in Ei.
    set (batch := JsString.slice i (i + batchSize) comments).
    set (st1 := fold_left (processOne gt_coerced world) batch (record (EvBatch batch) st)).
    assert (Hst1 : schedule (trace st1) = schedule (trace st) ++ [EvBatch batch]).
    { unfold st1. rewrite processBatch_schedule. simpl. now rewrite schedule_app. }
    assert (Hbatch : batch = firstn batchSize (skipn i comments)).
    { unfold batch, JsString.slice. f_equal. lia. }
    assert (Hsplit : skipn i comments = batch ++ skipn (i + batchSize) comments).
    { rewrite Hbatch, Nat.add_comm, <- skipn_skipn. symmetry. apply firstn_skipn. }
    destruct (i + batchSize <? List.length comments) eqn:Enext.
    + apply Nat.ltb_lt in Enext.
      destruct (IH (i + batchSize) (record (EvDelay delay) st1)) as (st' & evs & Hrun & Hsched & Hb);
        [lia|].
      exists st', (EvBatch batch :: EvDelay delay :: evs). split; [exact Hrun|]. split.
      * rewrite Hsched. simpl. rewrite schedule_app, Hst1. simpl.
        now rewrite <- !app_assoc.
      * rewrite Hsplit. constructor; auto.
        -- rewrite Hbatch, length_firstn, length_skipn. lia.
        -- intros H. apply (f_equal (@List.length _)) in H.
           rewrite length_skipn in H. simpl in H. lia.
    + apply Nat.ltb_ge in Enext.
      destruct (IH (i + batchSize) st1) as (st' & evs & Hrun & Hsched & Hb); [lia|].
      rewrite (skipn_all2 (n := i + batchSize)) in Hb, Hsplit by lia.
      rewrite app_nil_r in Hsplit.
      exists st', [EvBatch batch]. split; [exact Hrun|].
      assert (Hevs : evs = []) by (now apply (Batched_nil batchSize delay)).
      subst evs. rewrite app_nil_r in Hsched. split; [congruence|].
      rewrite Hsplit. constructor.
      * intros H. apply (f_equal (@List.length _)) in H.
        rewrite <- Hsplit, length_skipn in H. simpl in H. lia.
      * rewrite Hbatch, length_firstn. lia.
Qed.

End BatchLoop.

Lemma Batched_seven_by_three (delay : nat) (l : list Comment.t) (evs : list Event) :
  Batched 3 delay l evs -> List.length l = 7 ->
  exists b1 b2 b3,
    l = b1 ++ b2 ++ b3
    /\ evs = [EvBatch b1; EvDelay delay; EvBatch b2; EvDelay delay; EvBatch b3]
    /\ List.length b1 = 3 /\ List.length b2 = 3 /\ List.length b3 = 1.
Proof.
  intros H Hlen.
  destruct H as [|b Hne Hb|b1 rest1 evs1 Hb1 Hne1 H1]; simpl in Hlen; try lia.
  rewrite length_app in Hlen.
  destruct H1 as [|b Hne Hb|b2 rest2 evs2 Hb2 Hne2 H2]; simpl in Hlen; try lia.
  rewrite length_app in Hlen.
  destruct H2 as [|b3 Hne Hb|b3 rest3 evs3 Hb3 Hne3 H3]; simpl in Hlen; try lia.
  - exists b1, b2, b3. repeat split; auto. lia.
  - rewrite length_app in Hlen. lia.
Qed.

Lemma find_none_unprocessed (uploadSession : string) (s : Store) :
  (forall c, In c s -> Comment.uploadSession c = uploadSession ->
             Comment.processed c = true) ->
  find uploadSession false s = [].
Proof.
  intros H. unfold find. induction s as [|c s IH]; simpl; auto.
  rewrite IH by (intros c' Hc'; apply H; now right).
  destruct (String.eqb (Comment.uploadSession c) uploadSession) eqn:E; simpl; auto.
  apply String.eqb_eq in E. rewrite (H c (or_introl eq_refl) E). reflexivity.
Qed.

(** ** The batch scheduler *)

(** C4. The background run cuts the unprocessed comments of the session
    into consecutive batches of 3 with a delay of 2000 ms after each batch but
    the last, the on-demand run into batches of 5 with delays of 1000 ms; with
    7 unprocessed comments the background run issues the three batches of
    sizes 3, 3 and 1 and exactly two delays. Both runs end. *)
Theorem scheduler_batches_and_delays :
  forall (gt_coerced : jsval -> jsval -> option bool) (world : World)
         (uploadSession : string) (s : Store),
    let unprocessed := find uploadSession false s in
    (exists st,
        processCommentsInBackground gt_coerced world uploadSession s = Some st
        /\ Batched 3 2000 unprocessed (schedule (trace st)))
    /\ (exists st r,
           processRoute gt_coerced world uploadSession s = Some (st, r)
           /\ Batched 5 1000 unprocessed (schedule (trace st)))
    /\ (List.length unprocessed = 7 ->
        exists st b1 b2 b3,
          processCommentsInBackground gt_coerced world uploadSession s = Some st
          /\ unprocessed = b1 ++ b2 ++ b3
          /\ schedule (trace st)
             = [EvBatch b1; EvDelay 2000; EvBatch b2; EvDelay 2000; EvBatch b3]
          /\ batchSizes (trace st) = [3; 3; 1]
          /\ delays (trace st) = [2000; 2000]).
Proof.
  intros gt world session s unprocessed.
  assert (Hbg : exists st,
             processCommentsInBackground gt world session s = Some st
             /\ Batched 3 2000 unprocessed (schedule (trace st))).
  { unfold processCommentsInBackground. fold unprocessed.
    destruct (batchLoop_batched gt world 3 2000 unprocessed (Nat.lt_0_succ 2)
                (List.length unprocessed) 0 (start s)) as (st & evs & Hrun & Hs & Hb); [lia|].
    exists st. split; [exact Hrun|]. simpl in Hs, Hb. now rewrite Hs. }
  split; [exact Hbg|]. split.
  - unfold processRoute. fold unprocessed.
    destruct (List.length unprocessed =? 0) eqn:E.
    + apply Nat.eqb_eq in E. apply length_zero_iff_nil in E. rewrite E.
      eexists _, _. split; [reflexivity|]. constructor.
    + destruct (batchLoop_batched gt world 5 1000 unprocessed (Nat.lt_0_succ 4)
                  (List.length unprocessed) 0 (start s)) as (st & evs & Hrun & Hs & Hb); [lia|].
      rewrite Hrun. simpl. eexists _, _. split; [reflexivity|].
      simpl in Hs, Hb. now rewrite Hs.
  - intros Hlen. destruct Hbg as (st & Hrun & Hb).
    destruct (Batched_seven_by_three _ _ _ Hb Hlen) as (b1 & b2 & b3 & Hl & Hev & H1 & H2 & H3).
    exists st, b1, b2, b3. repeat split; auto.
    + rewrite <- batchSizes_schedule, Hev. simpl. now rewrite H1, H2, H3.
    + rewrite <- delays_schedule, Hev. reflexivity.
Qed.

Lemma scheduler_batches_and_delays_witness :
  exists st b1 b2 b3,
    processCommentsInBackground noCoercion offline "s1" sevenUnprocessed = Some st
    /\ find "s1" false sevenUnprocessed = b1 ++ b2 ++ b3
    /\ schedule (trace st)
       = [EvBatch b1; EvDelay 2000; EvBatch b2; EvDelay 2000; EvBatch b3]
    /\ batchSizes (trace st) = [3; 3; 1]
    /\ delays (trace st) = [2000; 2000].
Proof.
  exact (proj2 (proj2 (scheduler_batches_and_delays noCoercion offline "s1" sevenUnprocessed))
               eq_refl).
Defined.

(** C7, as the code has it. When no comment of the session is unprocessed,
    neither run updates a document: the store and the trace stay as they
    were. The background run ends with a processed count of zero; the
    on-demand route answers with a message alone, without a processed count. *)
Theorem scheduler_nothing_unprocessed :
  forall (gt_coerced : jsval -> jsval -> option bool) (world : World)
         (uploadSession : string) (s : Store),
    (forall c, In c s -> Comment.uploadSession c = uploadSession ->
               Comment.processed c = true) ->
    (exists st,
        processCommentsInBackground gt_coerced world uploadSession s = Some st
        /\ store st = s /\ trace st = [] /\ processedCount st = 0)
    /\ (exists st r,
           processRoute gt_coerced world uploadSession s = Some (st, r)
           /\ store st = s /\ trace st = []
           /\ r = NothingToProcess "No comments to process or all comments already processed"
           /\ reportedCount r = None).
Proof.
  intros gt world session s H.
  apply find_none_unprocessed in H. split.
  - exists (start s). unfold processCommentsInBackground. rewrite H. simpl. auto.
  - eexists _, _. unfold processRoute. rewrite H. simpl.
    split; [reflexivity|]. auto.
Qed.

Lemma scheduler_nothing_unprocessed_witness :
  (exists st,
      processCommentsInBackground noCoercion offline "s1" allProcessed = Some st
      /\ store st = allProcessed /\ trace st = [] /\ processedCount st = 0)
  /\ (exists st r,
         processRoute noCoercion offline "s1" allProcessed = Some (st, r)
         /\ store st = allProcessed /\ trace st = []
         /\ r = NothingToProcess "No comments to process or all comments already processed"
         /\ reportedCount r = None).
Proof.
  apply (scheduler_nothing_unprocessed noCoercion offline "s1" allProcessed).
  intros c Hc _. simpl in Hc.
  destruct Hc as [<-|[<-|[]]]; reflexivity.
Defined.

(** C7 as stated fails for the on-demand route: on a session whose comments
    are all processed its answer carries no processed count, so it does not
    report the count zero. *)
Lemma processRoute_nothing_unprocessed_no_count :
  option_map (fun out => reportedCount (snd out))
             (processRoute noCoercion offline "s1" allProcessed) = Some None
  /\ option_map (fun out => reportedCount (snd out))
                (processRoute noCoercion offline "s1" allProcessed) <> Some (Some 0).
Proof. split; [reflexivity|]. vm_compute. discriminate. Qed.

(** ** The status and statistics queries *)

Lemma getStatus_isComplete (uploadSession : string) (s : Store) :
  Status.isComplete (getStatus uploadSession s) = true <->
  0 < countSession uploadSession s
  /\ countSession uploadSession s = countProcessed uploadSession s.
Proof.
  unfold getStatus; simpl.
  rewrite andb_true_iff, Nat.ltb_lt, Nat.eqb_eq. tauto.
Qed.

Lemma getStatus_no_comment (uploadSession : string) (s : Store) :
  countSession uploadSession s = 0 ->
  Status.progress (getStatus uploadSession s) = 0%float.
Proof. unfold getStatus; simpl. now intros ->. Qed.

(** C5 at 29 processed comments out of 200. The exact percentage is 14.5,
    which rounds to 15; the route divides first, and the double nearest to
    0.145 times 100 is 14.499999999999998, which [Math.round] takes to 14.
    Multiplying first gives 15 in floating point too. *)
Theorem getStatus_progress_29_of_200 :
  getStatus "s1" twoHundred = Status.mk 200 29 false 14%float
  /\ roundedPercent 29 200 = 15%Z
  /\ (JsMath.of_nat 29 / JsMath.of_nat 200 * 100 = 14.499999999999998)%float
  /\ JsMath.round (100 * JsMath.of_nat 29 / JsMath.of_nat 200)%float = 15%float.
Proof. repeat split; vm_compute; reflexivity. Qed.

Section Groups.

Variable value : string.

(** What the [forEach] leaves in a field: the count of the last group of
    that value, or what the field held. *)
Lemma pickCount_groups (f : string -> nat) (values : list string) :
  forall acc,
    fold_left (pickCount value) (map (fun v => (v, f v)) values) acc
    = if in_dec string_dec value values then f value else acc.
Proof.
  induction values as [|v vs IH]; intros acc; cbn [map fold_left]; auto.
  rewrite IH. unfold pickCount; cbn [fst snd].
  destruct (String.eqb_spec v value) as [->|Hne]; simpl.
  - destruct (in_dec string_dec value vs); destruct (string_dec value value); tauto.
  - destruct (in_dec string_dec value vs); destruct (string_dec v value); tauto.
Qed.


Lemma pickCount_aggregate (uploadSession : string) (s : Store) :
  fold_left (pickCount value) (aggregateBySentiment uploadSession s) 0
  = countSentiment uploadSession value s.
Proof.
  unfold aggregateBySentiment, countSentiment. rewrite pickCount_groups.
  set (docs := find uploadSession true s).
  assert (Hcount : count_occ string_dec (map Comment.sentiment docs) value
                   = List.length (filter (fun c => String.eqb (Comment.sentiment c) value) docs)).
  { induction docs as [|c docs IH]; simpl; auto.
    destruct (String.eqb_spec (Comment.sentiment c) value) as [->|Hne];
      destruct (string_dec _ _); simpl; congruence. }
  destruct (in_dec string_dec value (nodup string_dec (map Comment.sentiment docs)))
    as [Hin|Hnot]; [exact Hcount|].
  rewrite nodup_In in Hnot.
  rewrite <- Hcount. symmetry. now apply count_occ_not_In.
Qed.

End Groups.

Lemma statsOf_fields (groups : list (string * nat)) :
  forall stats : Statistics.t,
    fold_left applyStat groups stats
    = Statistics.mk (Statistics.total stats) (Statistics.processed stats)
        (fold_left (pickCount "positive") groups (Statistics.positive stats))
        (fold_left (pickCount "negative") groups (Statistics.negative stats))
        (fold_left (pickCount "neutral") groups (Statistics.neutral stats)).
Proof.
  induction groups as [|[k n] gs IH]; intros [t p a b c]; cbn [fold_left].
  - reflexivity.
  - rewrite IH. unfold applyStat, pickCount; cbn [fst snd].
    destruct (String.eqb_spec k "positive") as [->|H1]; [reflexivity|].
    destruct (String.eqb_spec k "negative") as [->|H2]; [reflexivity|].
    destruct (String.eqb_spec k "neutral") as [->|H3]; reflexivity.
Qed.




(** ** Tokens: helper lemmas *)

Lemma lower_char_not_upper (c : ascii) : JsString.is_upper (JsString.lower_char c) = false.
Proof. destruct c as [[] [] [] [] [] [] [] []]; vm_compute; reflexivity. Qed.

Lemma toLowerCase_chars (s : string) (c : ascii) :
  In c (chars (JsString.toLowerCase s)) -> JsString.is_upper c = false.
Proof.
  induction s as [|a r IH]; simpl; [tauto|].
  intros [<-|H]; [apply lower_char_not_upper|auto].
Qed.

Lemma strip_chars (keep : ascii -> bool) (s : string) (c : ascii) :
  In c (chars (JsString.strip keep s)) -> In c (chars s) /\ keep c = true.
Proof.
  induction s as [|a r IH]; simpl; [tauto|].
  destruct (keep a) eqn:Ea; simpl.
  - intros [<-|H]; [auto|]. destruct (IH H); auto.
  - intros H. destruct (IH H); auto.
Qed.

Lemma toLowerCase_fixed (s : string) :
  (forall c, In c (chars s) -> JsString.is_upper c = false) -> JsString.toLowerCase s = s.
Proof.
  induction s as [|a r IH]; simpl; intros H; [reflexivity|].
  rewrite IH by auto. unfold JsString.lower_char. now rewrite (H a) by auto.
Qed.

Lemma rawTokens_lower (text w : string) :
  In w (rawTokens text) -> JsString.toLowerCase w = w.
Proof.
  unfold rawTokens. intros Hw. apply toLowerCase_fixed. intros c Hc.
  destruct (split_runs_chars _ _ _ _ Hw Hc) as [Hs _].
  apply strip_chars in Hs. destruct Hs as [Hs _].
  now apply toLowerCase_chars in Hs.
Qed.

Lemma set_has_false (set : list string) (k : string) :
  set_has set k = false -> ~ In k set.
Proof.
  unfold set_has. intros H Hin.
  assert (existsb (String.eqb k) set = true)
    by (apply existsb_exists; exists k; split; [assumption|apply String.eqb_refl]).
  congruence.
Qed.

Lemma wordsOf_In (text w : string) :
  In w (wordsOf text) ->
  In w (rawTokens text) /\ 3 < String.length w /\ isStopWord w = false
  /\ ~ In w stopWords.
Proof.
  unfold wordsOf. rewrite filter_In, andb_true_iff, Nat.ltb_lt, negb_true_iff.
  intros (Hraw & Hlen & Hstop). repeat split; auto.
  unfold isStopWord in Hstop. rewrite (rawTokens_lower text w Hraw) in Hstop.
  now apply set_has_false.
Qed.

Lemma allWords_In (comments : list Comment.t) (w : string) :
  In w (allWords comments) ->
  exists c, In c comments /\ In w (wordsOf (Comment.originalText c)).
Proof.
  unfold allWords. rewrite in_flat_map. intros (c & Hc & Hw). eauto.
Qed.

(** ** The counting map: helper lemmas *)

Lemma map_get_set (k k' : string) (v : nat) (m : JsMap) :
  map_get k' (map_set k v m) = if String.eqb k' k then Some v else map_get k' m.
Proof.
  induction m as [|[a n] m IH]; simpl.
  - reflexivity.
  - destruct (String.eqb_spec k a) as [->|Hka]; simpl.
    + destruct (String.eqb k' a); reflexivity.
    + rewrite IH. destruct (String.eqb_spec k' a) as [->|Hk'a]; auto.
      destruct (String.eqb_spec a k); congruence.
Qed.

Lemma map_set_keys (k : string) (v : nat) (m : JsMap) :
  map fst (map_set k v m)
  = match map_get k m with
    | Some _ => map fst m
    | None => map fst m ++ [k]
    end.
Proof.
  induction m as [|[a n] m IH]; simpl; auto.
  destruct (String.eqb k a); simpl; auto.
  rewrite IH. destruct (map_get k m); reflexivity.
Qed.

Lemma map_get_None (k : string) (m : JsMap) :
  map_get k m = None -> ~ In k (map fst m).
Proof.
  induction m as [|[a n] m IH]; simpl; [tauto|].
  destruct (String.eqb_spec k a) as [->|Hka]; [discriminate|].
  intros H [Heq|Hin]; [congruence|]. now apply IH.
Qed.

Lemma map_set_NoDup (k : string) (v : nat) (m : JsMap) :
  NoDup (map fst m) -> NoDup (map fst (map_set k v m)).
Proof.
  intros H. rewrite map_set_keys. destruct (map_get k m) eqn:E; auto.
  apply map_get_None in E.
  apply (Permutation_NoDup (l := k :: map fst m)).
  - apply Permutation_cons_append.
  - now constructor.
Qed.

Lemma map_get_In (k : string) (v : nat) (m : JsMap) :
  NoDup (map fst m) -> In (k, v) m -> map_get k m = Some v.
Proof.
  induction m as [|[a n] m IH]; simpl; [tauto|].
  intros Hnd Hin. inversion Hnd as [|x l Hnot Hnd']; subst.
  destruct Hin as [Heq|Hin].
  - inversion Heq; subst. now rewrite String.eqb_refl.
  - destruct (String.eqb_spec k a) as [->|Hka]; [|auto].
    exfalso. apply Hnot. now apply (in_map fst) in Hin.
Qed.

Lemma Counts_countWord (ws : list string) (m : JsMap) (w : string) :
  Counts ws m -> Counts (ws ++ [w]) (countWord m w).
Proof.
  intros [Hnd Hget]. split; [now apply map_set_NoDup|].
  intros k. unfold countWord. rewrite map_get_set, count_occ_app. simpl.
  destruct (String.eqb_spec k w) as [->|Hkw].
  - rewrite Hget. destruct (string_dec w w) as [_|]; [|congruence].
    destruct (count_occ string_dec ws w) as [|n]; simpl.
    + reflexivity.
    + replace (n + 1 =? 0) with false by (symmetry; apply Nat.eqb_neq; lia).
      reflexivity.
  - destruct (string_dec w k) as [->|_]; [congruence|].
    rewrite Nat.add_0_r. apply Hget.
Qed.

Lemma Counts_fold (more : list string) :
  forall ws m, Counts ws m -> Counts (ws ++ more) (fold_left countWord more m).
Proof.
  induction more as [|w more IH]; intros ws m H; simpl.
  - now rewrite app_nil_r.
  - replace (ws ++ w :: more) with ((ws ++ [w]) ++ more) by now rewrite <- app_assoc.
    apply IH. now apply Counts_countWord.
Qed.

Lemma wordCounts_from (comments : list Comment.t) :
  forall m,
    fold_left (fun wordCount c =>
                 fold_left countWord (wordsOf (Comment.originalText c)) wordCount)
              comments m
    = fold_left countWord (allWords comments) m.
Proof.
  induction comments as [|c cs IH]; intros m; simpl; auto.
  rewrite IH. unfold allWords at 2. simpl. now rewrite fold_left_app.
Qed.

Lemma wordCounts_Counts (comments : list Comment.t) :
  Counts (allWords comments) (wordCounts comments).
Proof.
  unfold wordCounts. rewrite wordCounts_from.
  apply (Counts_fold (allWords comments) [] []).
  split; [constructor|reflexivity].
Qed.

Lemma Counts_entry (ws : list string) (m : JsMap) (k : string) (v : nat) :
  Counts ws m -> In (k, v) m ->
  v = count_occ string_dec ws k /\ 1 <= v /\ In k ws.
Proof.
  intros [Hnd Hget] Hin. apply (map_get_In k v m Hnd) in Hin.
  rewrite Hget in Hin.
  destruct (count_occ string_dec ws k =? 0) eqn:E; [discriminate|].
  apply Nat.eqb_neq in E. inversion Hin; subst.
  repeat split; [lia|]. apply (count_occ_In string_dec). lia.
Qed.

(** ** Sorting and slicing: helper lemmas *)

Lemma insertByValue_perm (e : WordEntry.t) (l : list WordEntry.t) :
  Permutation (insertByValue e l) (e :: l).
Proof.
  induction l as [|x l IH]; simpl; auto.
  destruct (WordEntry.value e <? WordEntry.value x); auto.
  rewrite IH. apply perm_swap.
Qed.

Lemma sortByValueDesc_perm (l : list WordEntry.t) : Permutation (sortByValueDesc l) l.
Proof.
  induction l as [|e l IH]; simpl; auto.
  rewrite insertByValue_perm. now constructor.
Qed.

Lemma firstn_incl {A : Type} (n : nat) (l : list A) (x : A) :
  In x (firstn n l) -> In x l.
Proof.
  revert l; induction n as [|n IH]; intros [|a l]; simpl; try tauto.
  intros [H|H]; auto.
Qed.

Lemma firstn_NoDup {A : Type} (n : nat) (l : list A) : NoDup l -> NoDup (firstn n l).
Proof.
  revert l; induction n as [|n IH]; intros [|a l] H; simpl; try constructor.
  - inversion H; subst. intros Hin. now apply firstn_incl in Hin.
  - inversion H; subst. auto.
Qed.

Lemma generateWordCloud_entry (comments : list Comment.t) (e : WordEntry.t) :
  In e (generateWordCloud comments) ->
  In (WordEntry.text e, WordEntry.value e) (wordCounts comments).
Proof.
  unfold generateWordCloud, JsString.slice. simpl skipn. intros H.
  apply firstn_incl in H.
  apply (Permutation_in _ (sortByValueDesc_perm _)) in H.
  apply in_map_iff in H. destruct H as ([k v] & <- & Hin). exact Hin.
Qed.

(** ** The word-frequency extractor *)

Lemma chars_toLowerCase (s : string) :
  chars (JsString.toLowerCase s) = map JsString.lower_char (chars s).
Proof. induction s as [|c r IH]; simpl; [reflexivity|]. now rewrite <- IH. Qed.

Lemma chars_strip (keep : ascii -> bool) (s : string) :
  chars (JsString.strip keep s) = filter keep (chars s).
Proof.
  induction s as [|c r IH]; simpl; [reflexivity|].
  destruct (keep c); simpl; now rewrite <- IH.
Qed.

(** The pieces of a split, by position: the first one starts the string and
    each later one follows a separator; none holds a separator and each ends
    at a separator or at the end of the string. *)
Lemma split_runs_pieces (sep : ascii -> bool) (s : string) :
  exists h t,
    JsString.split_runs sep s = h :: t
    /\ (exists a, chars s = chars h ++ a
                  /\ (forall c, In c (chars h) -> sep c = false)
                  /\ (a = [] \/ exists c a', a = c :: a' /\ sep c = true))
    /\ forall p, In p t ->
         exists b c a,
           chars s = (b ++ [c]) ++ chars p ++ a
           /\ sep c = true
           /\ (forall x, In x (chars p) -> sep x = false)
           /\ (a = [] \/ exists x a', a = x :: a' /\ sep x = true).
Proof.
  induction s as [|c r (h & t & Hsplit & (a & Hh & Hfree & Hafter) & Htail)].
  - exists EmptyString, []. simpl. split; [reflexivity|]. split.
    + exists []. simpl. split; [reflexivity|]. split; [tauto|auto].
    + intros p [].
  - assert (Hlater : forall p, In p t ->
              exists b x a0,
                chars (String c r) = (b ++ [x]) ++ chars p ++ a0
                /\ sep x = true
                /\ (forall y, In y (chars p) -> sep y = false)
                /\ (a0 = [] \/ exists y a', a0 = y :: a' /\ sep y = true)).
    { intros p Hp. destruct (Htail p Hp) as (b & x & a0 & Hr & Hx & Hf & Ha).
      exists (c :: b), x, a0. simpl. rewrite Hr. auto. }
    simpl. destruct (sep c) eqn:Ec.
    + assert (Hempty : exists a0, chars (String c r) = chars EmptyString ++ a0
                   /\ (forall x, In x (chars EmptyString) -> sep x = false)
                   /\ (a0 = [] \/ exists y a', a0 = y :: a' /\ sep y = true)).
      { exists (c :: chars r). simpl. split; [reflexivity|]. split; [tauto|].
        right. eauto. }
      assert (Hfirst : exists b x a0,
                 chars (String c r) = (b ++ [x]) ++ chars h ++ a0
                 /\ sep x = true
                 /\ (forall y, In y (chars h) -> sep y = false)
                 /\ (a0 = [] \/ exists y a', a0 = y :: a' /\ sep y = true)).
      { exists [], c, a. simpl. rewrite Hh. auto. }
      assert (Hcons : exists h' t',
                 EmptyString :: JsString.split_runs sep r = h' :: t'
                 /\ (exists a0, chars (String c r) = chars h' ++ a0
                                /\ (forall x, In x (chars h') -> sep x = false)
                                /\ (a0 = [] \/ exists y a', a0 = y :: a' /\ sep y = true))
                 /\ forall p, In p t' ->
                      exists b x a0,
                        chars (String c r) = (b ++ [x]) ++ chars p ++ a0
                        /\ sep x = true
                        /\ (forall y, In y (chars p) -> sep y = false)
                        /\ (a0 = [] \/ exists y a', a0 = y :: a' /\ sep y = true)).
      { exists EmptyString, (h :: t). rewrite Hsplit. split; [reflexivity|].
        split; [exact Hempty|]. intros p [<-|Hp]; auto. }
      destruct r as [|d r']; [exact Hcons|].
      destruct (sep d) eqn:Ed; [|exact Hcons].
      exists h, t. split; [exact Hsplit|]. split; [|exact Hlater].
      assert (Hnil : h = EmptyString).
      { destruct h as [|x h']; [reflexivity|]. simpl in Hh. injection Hh as Hx _.
        subst x. rewrite (Hfree d) in Ed by (simpl; auto). discriminate. }
      subst h. exact Hempty.
    + rewrite Hsplit. exists (String c h), t. split; [reflexivity|].
      split; [|exact Hlater].
      exists a. simpl. rewrite Hh. split; [reflexivity|]. split; [|exact Hafter].
      intros x [<-|Hx]; auto.
Qed.

Lemma split_runs_field (sep : ascii -> bool) (s piece : string) :
  In piece (JsString.split_runs sep s) -> isField sep (chars s) (chars piece).
Proof.
  destruct (split_runs_pieces sep s) as (h & t & Hsplit & (a & Hh & Hfree & Hafter) & Htail).
  rewrite Hsplit. intros [<-|Hp].
  - exists [], a. simpl. auto.
  - destruct (Htail piece Hp) as (b & c & a0 & Hs & Hc & Hf & Ha).
    exists (b ++ [c]), a0. repeat split; auto. right. eauto.
Qed.

Lemma rawTokens_isTokenOf (text token : string) :
  In token (rawTokens text) -> isTokenOf token text.
Proof.
  unfold rawTokens, isTokenOf, normalised. intros H.
  apply split_runs_field in H. now rewrite chars_strip, chars_toLowerCase in H.
Qed.

Lemma token_char (c : ascii) :
  is_word_or_space c = true -> JsString.is_space c = false ->
  JsString.is_upper c = false -> is_token_char c = true.
Proof.
  destruct c as [[] [] [] [] [] [] [] []]; vm_compute; intros; congruence.
Qed.

Lemma rawTokens_chars (text token : string) (c : ascii) :
  In token (rawTokens text) -> In c (chars token) -> is_token_char c = true.
Proof.
  unfold rawTokens. intros Ht Hc.
  destruct (split_runs_chars _ _ _ _ Ht Hc) as [Hs Hsp].
  apply strip_chars in Hs. destruct Hs as [Hl Hk].
  apply toLowerCase_chars in Hl. now apply token_char.
Qed.

(** C9. Every entry of the word cloud has a text longer than 3 characters
    that is not a stop word, and there are at most 50 entries. The text is a
    token of the original text of one of the comments: lower-case the
    characters of that text, drop those that are neither word characters nor
    white space, and the token stands between white space (or the ends) of
    what is left; so it is made of [a-z], [0-9] and the underscore only. It is
    one of the pieces the code's own pipeline gives for that comment. *)
Theorem generateWordCloud_tokens :
  forall comments : list Comment.t,
    List.length (generateWordCloud comments) <= 50
    /\ forall e : WordEntry.t,
         In e (generateWordCloud comments) ->
         3 < String.length (WordEntry.text e)
         /\ ~ In (WordEntry.text e) stopWords
         /\ isStopWord (WordEntry.text e) = false
         /\ (forall c, In c (chars (WordEntry.text e)) -> is_token_char c = true)
         /\ exists c, In c comments
                      /\ isTokenOf (WordEntry.text e) (Comment.originalText c)
                      /\ In (WordEntry.text e)
                            (JsString.split_runs JsString.is_space
                               (JsString.strip is_word_or_space
                                  (JsString.toLowerCase (Comment.originalText c)))).
Proof.
  intros comments. split.
  - unfold generateWordCloud, JsString.slice. apply firstn_le_length.
  - intros e He. apply generateWordCloud_entry in He.
    destruct (Counts_entry _ _ _ _ (wordCounts_Counts comments) He) as (_ & _ & Hin).
    apply allWords_In in Hin. destruct Hin as (c & Hc & Hw).
    apply wordsOf_In in Hw. destruct Hw as (Hraw & Hlen & Hstop & Hnot).
    repeat split; auto.
    + intros x Hx. now apply (rawTokens_chars (Comment.originalText c) (WordEntry.text e)).
    + exists c. split; [exact Hc|]. split; [|exact Hraw]. now apply rawTokens_isTokenOf.
Qed.

Lemma generateWordCloud_tokens_witness :
  In (WordEntry.mk "service" 2) (generateWordCloud sampleComments)
  /\ 3 < String.length "service"
  /\ ~ In "service" stopWords
  /\ (forall c, In c (chars "service") -> is_token_char c = true)
  /\ exists c, In c sampleComments /\ isTokenOf "service" (Comment.originalText c).
Proof.
  assert (Hin : In (WordEntry.mk "service" 2) (generateWordCloud sampleComments))
    by (vm_compute; auto).
  destruct (proj2 (generateWordCloud_tokens sampleComments) _ Hin)
    as (Hlen & Hnot & _ & Hchars & c & Hc & Htok & _).
  split; [exact Hin|]. split; [exact Hlen|]. split; [exact Hnot|].
  split; [exact Hchars|]. exists c. split; [exact Hc|exact Htok].
Defined.

(** C10. The texts of the entries of the word cloud are pairwise distinct,
    and the value of an entry is at least 1: it is the number of times the
    text occurs among the counted words of all the comments. *)
Theorem generateWordCloud_distinct :
  forall comments : list Comment.t,
    NoDup (map WordEntry.text (generateWordCloud comments))
    /\ forall e : WordEntry.t,
         In e (generateWordCloud comments) ->
         1 <= WordEntry.value e
         /\ WordEntry.value e = count_occ string_dec (allWords comments) (WordEntry.text e).
Proof.
  intros comments. split.
  - unfold generateWordCloud, JsString.slice. simpl skipn.
    rewrite <- firstn_map. apply firstn_NoDup.
    apply (Permutation_NoDup (l := map fst (wordCounts comments))).
    + rewrite sortByValueDesc_perm, map_map. apply Permutation_refl'.
      apply map_ext. now intros [k v].
    + apply wordCounts_Counts.
  - intros e He. apply generateWordCloud_entry in He.
    destruct (Counts_entry _ _ _ _ (wordCounts_Counts comments) He) as (Hv & Hpos & _).
    auto.
Qed.

Lemma generateWordCloud_distinct_witness :
  1 <= 3 /\ 3 = count_occ string_dec (allWords sampleComments) "great".
Proof.
  assert (Hin : In (WordEntry.mk "great" 3) (generateWordCloud sampleComments))
    by (vm_compute; auto).
  exact (proj2 (generateWordCloud_distinct sampleComments) _ Hin).
Defined.

(** ** Further properties of the local fallbacks *)

Lemma toLowerCase_idempotent (s : string) :
  JsString.toLowerCase (JsString.toLowerCase s) = JsString.toLowerCase s.
Proof. apply toLowerCase_fixed. intros c. apply toLowerCase_chars. Qed.

(** X1. The fallback scorer does not see the case of the text: lower-casing
    the text first changes nothing of its answer. *)
Theorem fallbackSentimentAnalysis_case_insensitive :
  forall text : string,
    fallbackSentimentAnalysis (JsString.toLowerCase text) = fallbackSentimentAnalysis text.
Proof.
  intros text. unfold fallbackSentimentAnalysis. now rewrite toLowerCase_idempotent.
Qed.

Lemma scoreConfidence_values (n : nat) :
  1 <= n <= 11 ->
  scoreConfidence n = 0.6%float \/ scoreConfidence n = 0.7%float
  \/ scoreConfidence n = 0.8%float.
Proof.
  intros [H1 H2]. destruct n as [|n]; [lia|].
  destruct n as [|n]; [left; vm_compute; reflexivity|].
  destruct n as [|n]; [right; left; vm_compute; reflexivity|].
  do 9 (destruct n as [|n]; [right; right; vm_compute; reflexivity|]).
  lia.
Qed.

(** X2. The fallback scorer knows four confidences: 0.5 for neutral, and
    0.6, 0.7 or 0.8 for positive and negative. *)
Theorem fallbackSentimentAnalysis_confidences :
  forall text : string,
    let r := fallbackSentimentAnalysis text in
    (Sentiment.sentiment r = "neutral" /\ Sentiment.confidence r = JNum 0.5%float)
    \/ ((Sentiment.sentiment r = "positive" \/ Sentiment.sentiment r = "negative")
        /\ (Sentiment.confidence r = JNum 0.6%float
            \/ Sentiment.confidence r = JNum 0.7%float
            \/ Sentiment.confidence r = JNum 0.8%float)).
Proof.
  intros text. unfold fallbackSentimentAnalysis.
  set (t := JsString.toLowerCase text).
  pose proof (keywordScore_le t positiveWords) as Hp.
  pose proof (keywordScore_le t negativeWords) as Hn.
  change (List.length positiveWords) with 11 in Hp.
  change (List.length negativeWords) with 11 in Hn.
  destruct (keywordScore negativeWords t <? keywordScore positiveWords t) eqn:E1; simpl.
  - apply Nat.ltb_lt in E1. right. split; [auto|].
    destruct (scoreConfidence_values (keywordScore positiveWords t)) as [H|[H|H]];
      [lia| | |]; rewrite H; auto.
  - destruct (keywordScore positiveWords t <? keywordScore negativeWords t) eqn:E2; simpl.
    + apply Nat.ltb_lt in E2. right. split; [auto|].
      destruct (scoreConfidence_values (keywordScore negativeWords t)) as [H|[H|H]];
        [lia| | |]; rewrite H; auto.
    + left. auto.
Qed.

Lemma trimStart_length (s : string) : String.length (JsString.trimStart s) <= String.length s.
Proof.
  induction s as [|c r IH]; simpl; [lia|].
  destruct (JsString.is_space c); simpl; lia.
Qed.

Lemma trimEnd_length (s : string) : String.length (JsString.trimEnd s) <= String.length s.
Proof.
  induction s as [|c r IH]; simpl; [lia|].
  destruct (JsString.trimEnd r); simpl in *; [destruct (JsString.is_space c); simpl; lia|lia].
Qed.

Lemma trim_length (s : string) : String.length (JsString.trim s) <= String.length s.
Proof.
  unfold JsString.trim.
  pose proof (trimEnd_length (JsString.trimStart s)). pose proof (trimStart_length s). lia.
Qed.

Lemma append_length (a b : string) :
  String.length (a ++ b)%string = String.length a + String.length b.
Proof. induction a as [|c a IH]; simpl; auto. Qed.

Lemma split_runs_weight (sep : ascii -> bool) (s : string) :
  weight (JsString.split_runs sep s) <= String.length s + 1.
Proof.
  unfold weight. induction s as [|c r IH]; simpl; [lia|].
  destruct (sep c).
  - destruct r as [|d r']; [simpl in *; lia|].
    destruct (sep d); simpl in *; lia.
  - destruct (JsString.split_runs sep r) as [|h t]; simpl in *; lia.
Qed.

Lemma filter_weight (f : string -> bool) (pieces : list string) :
  weight (filter f pieces) <= weight pieces.
Proof.
  unfold weight. induction pieces as [|p ps IH]; simpl; [lia|].
  destruct (f p); simpl; lia.
Qed.

(** X3. The fallback summary is never longer than the text it summarizes. *)
Theorem fallbackSummarization_not_longer :
  forall text : string,
    String.length (fallbackSummarization text) <= String.length text.
Proof.
  intros text. unfold fallbackSummarization.
  destruct (List.length (sentencesOf text) <=? 2) eqn:E; [lia|].
  pose proof (filter_weight (fun s => 0 <? String.length (JsString.trim s))
                (JsString.split_runs is_sentence_end text)) as Hf.
  pose proof (split_runs_weight is_sentence_end text) as Hs.
  fold (sentencesOf text) in Hf.
  destruct (sentencesOf text) as [|s1 [|s2 [|s3 rest]]] eqn:Es; try discriminate.
  assert (H3 : 1 <= String.length s3).
  { assert (Hin : In s3 (sentencesOf text)) by (rewrite Es; simpl; auto).
    unfold sentencesOf in Hin. apply filter_In in Hin. destruct Hin as [_ Hin].
    apply Nat.ltb_lt in Hin. pose proof (trim_length s3). lia. }
  unfold JsString.slice, JsString.join. cbn [Nat.sub skipn firstn String.concat].
  rewrite append_length.
  pose proof (trim_length (s1 ++ ". " ++ s2)) as Ht.
  rewrite !append_length in Ht. unfold weight in Hf, Hs. simpl in Hf, Ht |- *. lia.
Qed.

(** X4. Whatever the summarization endpoint does, [summarizeText] answers:
    with the text itself when it is shorter than 100 characters, with the
    truthy [summary_text] of the first element of an array payload of an ok
    response when there is one, and with the fallback summary otherwise. *)
Theorem summarizeText_cases :
  forall (remote : HttpOutcome) (text : string),
    summarizeText remote text
    = if String.length text <? 100 then JStr text
      else match remoteSummary remote with
           | Some summary_text => summary_text
           | None => JStr (fallbackSummarization text)
           end.
Proof.
  intros remote text. unfold summarizeText.
  destruct (String.length text <? 100); [reflexivity|].
  destruct remote as [|[|] [payload|]]; try reflexivity.
  destruct payload as [| | | | |[|first rest]|]; try reflexivity.
  unfold summarizeText_try, remoteSummary, bind, try_catch.
  destruct (getProp first "summary_text") as [v|]; [|reflexivity].
  destruct (truthy v); reflexivity.
Qed.

(** ** The order of Numbers *)

Ltac compare_cases :=
  repeat match goal with
         | |- context [Z.compare ?a ?b] => destruct (Z.compare_spec a b)
         | |- context [PosDef.Pos.compare_cont Eq ?a ?b] =>
             change (PosDef.Pos.compare_cont Eq a b) with (Pos.compare a b) in *;
             destruct (Pos.compare_spec a b)
         end.

Lemma SFltb_negtrans (a b c : spec_float) :
  a <> S754_nan -> b <> S754_nan -> c <> S754_nan ->
  SFltb a b = false -> SFltb b c = false -> SFltb a c = false.
Proof.
  unfold SFltb, SFcompare.
  destruct a as [[]|[]| |[] ma ea], b as [[]|[]| |[] mb eb], c as [[]|[]| |[] mc ec];
    intros Ha Hb Hc; try congruence; simpl; try reflexivity; try discriminate;
    compare_cases; simpl; try reflexivity; try discriminate; intros; subst; try lia.
Qed.

Lemma SFltb_asym (a b : spec_float) : SFltb a b = true -> SFltb b a = false.
Proof.
  unfold SFltb, SFcompare.
  destruct a as [[]|[]| |[] ma ea], b as [[]|[]| |[] mb eb];
    simpl; try reflexivity; try discriminate;
    compare_cases; simpl; try reflexivity; try discriminate; intros; subst; try lia.
Qed.

Lemma SFltb_irrefl (a : spec_float) : SFltb a a = false.
Proof.
  unfold SFltb, SFcompare.
  destruct a as [[]|[]| |[] ma ea]; simpl; try reflexivity;
    rewrite Z.compare_refl;
    change (PosDef.Pos.compare_cont Eq ma ma) with (Pos.compare ma ma);
    rewrite Pos.compare_refl; reflexivity.
Qed.

Lemma between_not_nan (x : float) :
  JsMath.between 0 1 x = true -> Prim2SF x <> S754_nan.
Proof.
  unfold JsMath.between. rewrite andb_true_iff, FloatAxioms.leb_spec. intros [H _] Hnan.
  rewrite Hnan in H. unfold SFleb, SFcompare in H.
  destruct (Prim2SF 0); discriminate.
Qed.

Lemma ltb_negtrans (x y z : float) :
  JsMath.between 0 1 x = true -> JsMath.between 0 1 y = true ->
  JsMath.between 0 1 z = true ->
  PrimFloat.ltb x y = false -> PrimFloat.ltb y z = false -> PrimFloat.ltb x z = false.
Proof.
  rewrite !FloatAxioms.ltb_spec. intros Hx Hy Hz.
  apply SFltb_negtrans; now apply between_not_nan.
Qed.

Lemma ltb_asym (x y : float) : PrimFloat.ltb x y = true -> PrimFloat.ltb y x = false.
Proof. rewrite !FloatAxioms.ltb_spec. apply SFltb_asym. Qed.

Lemma ltb_irrefl (x : float) : PrimFloat.ltb x x = false.
Proof. rewrite FloatAxioms.ltb_spec. apply SFltb_irrefl. Qed.

(** ** Further properties of the remote sentiment path *)

Lemma numericScore_score (c : jsval) :
  numericScore c = true ->
  exists y, getProp c "score" = Some (JNum y) /\ JsMath.between 0 1 y = true.
Proof.
  unfold numericScore. destruct (getProp c "score") as [[| | |y| | |]|]; try discriminate.
  eauto.
Qed.

Lemma getProp_label_total (c : jsval) (v : jsval) :
  getProp c "score" = Some v -> exists label, getProp c "label" = Some label.
Proof. destruct c; simpl; try discriminate; eauto. Qed.

Section HighestScore.

Variable gt_coerced : jsval -> jsval -> option bool.

Lemma reduceFrom_highest (items : list jsval) :
  forallb numericScore items = true ->
  forall acc xa,
    getProp acc "score" = Some (JNum xa) -> JsMath.between 0 1 xa = true ->
    exists top xt,
      reduceFrom (higherScore gt_coerced) acc items = Some top
      /\ (top = acc \/ In top items)
      /\ getProp top "score" = Some (JNum xt)
      /\ JsMath.between 0 1 xt = true
      /\ PrimFloat.ltb xt xa = false
      /\ forall c y, In c items -> getProp c "score" = Some (JNum y) ->
                     PrimFloat.ltb xt y = false.
Proof.
  induction items as [|x rest IH]; intros Hall acc xa Hacc Hxa.
  - exists acc, xa. simpl. repeat split; auto using ltb_irrefl. intros c y [].
  - simpl in Hall. apply andb_true_iff in Hall. destruct Hall as [Hx Hrest].
    destruct (numericScore_score x Hx) as (y & Hy & Hby).
    assert (Hstep : higherScore gt_coerced acc x
                    = Some (if PrimFloat.ltb y xa then acc else x)).
    { unfold higherScore, bind. rewrite Hacc, Hy. reflexivity. }
    simpl. unfold bind at 1. rewrite Hstep.
    destruct (PrimFloat.ltb y xa) eqn:Elt.
    + destruct (IH Hrest acc xa Hacc Hxa) as (top & xt & Hrun & Hin & Hs & Hbt & Hge & Hmax).
      exists top, xt. repeat split; auto; [simpl; tauto|].
      intros c z [<-|Hc] Hz.
      * rewrite Hy in Hz. inversion Hz; subst z.
        apply (ltb_negtrans xt xa y); auto using ltb_asym.
      * eauto.
    + destruct (IH Hrest x y Hy Hby) as (top & xt & Hrun & Hin & Hs & Hbt & Hge & Hmax).
      exists top, xt. repeat split; auto; [destruct Hin as [->|Hin]; simpl; auto| |].
      * apply (ltb_negtrans xt y xa); auto.
      * intros c z [<-|Hc] Hz; [|eauto].
        rewrite Hy in Hz. inversion Hz; subst z. exact Hge.
Qed.

End HighestScore.

(** X5. When the sentiment endpoint answers with an array whose first
    element is the array of classes, and the handling does not throw, the
    confidence is the [score] and the sentiment the mapped [label] of one and
    the same class of the answer. *)
Theorem sentimentOfPayload_one_class :
  forall (gt_coerced : jsval -> jsval -> option bool) (classes rest : list jsval)
         (r : Sentiment.t),
    sentimentOfPayload gt_coerced (JArr (JArr classes :: rest)) = Some r ->
    exists (picked label : jsval),
      In picked classes
      /\ getProp picked "score" = Some (Sentiment.confidence r)
      /\ getProp picked "label" = Some label
      /\ Sentiment.sentiment r = sentimentOfLabel label.
Proof.
  intros gt classes rest r. simpl. unfold bind.
  destruct (reduce (higherScore gt) classes) as [top|] eqn:Etop; [|discriminate].
  apply reduce_picks in Etop.
  destruct (getProp top "score") as [conf|] eqn:Es; [|discriminate].
  destruct (getProp top "label") as [label|] eqn:El; [|discriminate].
  intros H. inversion H; subst; simpl. exists top, label. auto.
Qed.

Lemma sentimentOfPayload_one_class_witness :
  exists (picked label : jsval),
    In picked [class "LABEL_0" 0.05%float; class "LABEL_1" 0.15%float;
               class "LABEL_2" 0.8%float]
    /\ getProp picked "score" = Some (JNum 0.8%float)
    /\ getProp picked "label" = Some label
    /\ "positive" = sentimentOfLabel label.
Proof.
  exact (sentimentOfPayload_one_class noCoercion
           [class "LABEL_0" 0.05%float; class "LABEL_1" 0.15%float;
            class "LABEL_2" 0.8%float] []
           (Sentiment.mk "positive" (JNum 0.8%float)) eq_refl).
Defined.

(** X6. When every class of the answer carries a Number of [0, 1] as its
    score, [analyzeSentiment] does not fall back: it answers with the score
    of a class that no other class exceeds, and with the mapped label of that
    class. *)
Theorem analyzeSentiment_highest_score :
  forall (gt_coerced : jsval -> jsval -> option bool) (classes rest : list jsval)
         (text : string),
    classes <> [] -> forallb numericScore classes = true ->
    exists (top label : jsval) (x : float),
      In top classes
      /\ getProp top "score" = Some (JNum x)
      /\ getProp top "label" = Some label
      /\ analyzeSentiment gt_coerced
           (Responded true (Some (JArr (JArr classes :: rest)))) text
         = Sentiment.mk (sentimentOfLabel label) (JNum x)
      /\ forall c y, In c classes -> getProp c "score" = Some (JNum y) ->
                     PrimFloat.ltb x y = false.
Proof.
  intros gt classes rest text Hne Hall.
  destruct classes as [|first others]; [congruence|].
  simpl in Hall. apply andb_true_iff in Hall. destruct Hall as [Hfirst Hothers].
  destruct (numericScore_score first Hfirst) as (xa & Hxa & Hba).
  destruct (reduceFrom_highest gt others Hothers first xa Hxa Hba)
    as (top & xt & Hrun & Hin & Hs & Hbt & Hge & Hmax).
  destruct (getProp_label_total top _ Hs) as (label & Hl).
  exists top, label, xt. repeat split; auto.
  - simpl. destruct Hin as [->|Hin]; auto.
  - unfold analyzeSentiment, analyzeSentiment_try, sentimentOfPayload, reduce, bind, try_catch.
    now rewrite Hrun, Hs, Hl.
  - intros c y [<-|Hc] Hy; [|eauto].
    rewrite Hxa in Hy. inversion Hy; subst y. exact Hge.
Qed.

Lemma analyzeSentiment_highest_score_witness :
  exists (top label : jsval) (x : float),
    In top [class "LABEL_0" 0.05%float; class "LABEL_1" 0.15%float;
            class "LABEL_2" 0.8%float]
    /\ getProp top "score" = Some (JNum x)
    /\ getProp top "label" = Some label
    /\ analyzeSentiment noCoercion threeClasses "fine"
       = Sentiment.mk (sentimentOfLabel label) (JNum x)
    /\ forall c y,
         In c [class "LABEL_0" 0.05%float; class "LABEL_1" 0.15%float;
               class "LABEL_2" 0.8%float] ->
         getProp c "score" = Some (JNum y) -> PrimFloat.ltb x y = false.
Proof.
  apply (analyzeSentiment_highest_score noCoercion
           [class "LABEL_0" 0.05%float; class "LABEL_1" 0.15%float;
            class "LABEL_2" 0.8%float] [] "fine").
  - discriminate.
  - reflexivity.
Defined.

(** ** Further properties of the word cloud *)

Lemma insertByValue_In (e x : WordEntry.t) (l : list WordEntry.t) :
  In x (insertByValue e l) -> x = e \/ In x l.
Proof.
  intros H. apply (Permutation_in _ (insertByValue_perm e l)) in H.
  destruct H as [<-|H]; auto.
Qed.

Lemma insertByValue_sorted (e : WordEntry.t) (l : list WordEntry.t) :
  StronglySorted valueGe l -> StronglySorted valueGe (insertByValue e l).
Proof.
  induction l as [|x l IH]; intros Hs; simpl.
  - repeat constructor.
  - inversion Hs as [|? ? Hl Hx]; subst.
    destruct (WordEntry.value e <? WordEntry.value x) eqn:E.
    + apply Nat.ltb_lt in E. constructor; [auto|].
      apply Forall_forall. intros y Hy. apply insertByValue_In in Hy.
      destruct Hy as [->|Hy]; [unfold valueGe; lia|].
      rewrite Forall_forall in Hx. auto.
    + apply Nat.ltb_ge in E. constructor; [exact Hs|].
      constructor; [exact E|].
      rewrite Forall_forall in Hx |- *. intros y Hy.
      specialize (Hx y Hy). unfold valueGe in *. lia.
Qed.

Lemma sortByValueDesc_sorted (l : list WordEntry.t) :
  StronglySorted valueGe (sortByValueDesc l).
Proof.
  induction l as [|e l IH]; simpl; [constructor|]. now apply insertByValue_sorted.
Qed.

Lemma StronglySorted_split {A : Type} (R : A -> A -> Prop) (l1 l2 : list A) :
  StronglySorted R (l1 ++ l2) ->
  StronglySorted R l1 /\ forall a b, In a l1 -> In b l2 -> R a b.
Proof.
  induction l1 as [|x l1 IH]; simpl; intros H.
  - split; [constructor|]. intros a b [].
  - inversion H as [|? ? Hl Hx]; subst. destruct (IH Hl) as [Hs Hab].
    rewrite Forall_forall in Hx. split.
    + constructor; [exact Hs|]. apply Forall_forall. intros y Hy.
      apply Hx. apply in_or_app. now left.
    + intros a b [<-|Ha] Hb; [|auto]. apply Hx. apply in_or_app. now right.
Qed.

Lemma map_get_Some_In (k : string) (v : nat) (m : JsMap) :
  map_get k m = Some v -> In (k, v) m.
Proof.
  induction m as [|[a n] m IH]; simpl; [discriminate|].
  destruct (String.eqb_spec k a) as [->|Hka].
  - intros H. inversion H. now left.
  - intros H. right. auto.
Qed.

(** X7. The word cloud lists its entries by value, no entry before one of a
    greater value, and what it leaves out of the 50 is nothing it counted
    more often than an entry it lists. *)
Theorem generateWordCloud_ordered :
  forall comments : list Comment.t,
    StronglySorted valueGe (generateWordCloud comments)
    /\ forall (word : string) (count : nat),
         In (word, count) (wordCounts comments) ->
         In (WordEntry.mk word count) (generateWordCloud comments)
         \/ forall e, In e (generateWordCloud comments) -> count <= WordEntry.value e.
Proof.
  intros comments. unfold generateWordCloud, JsString.slice. simpl skipn. simpl Nat.sub.
  set (entries := map (fun '(text, value) => WordEntry.mk text value) (wordCounts comments)).
  pose proof (sortByValueDesc_sorted entries) as Hs.
  rewrite <- (firstn_skipn 50 (sortByValueDesc entries)) in Hs.
  apply StronglySorted_split in Hs. destruct Hs as [Hfirst Hcross].
  split; [exact Hfirst|].
  intros word count Hin.
  assert (He : In (WordEntry.mk word count) (sortByValueDesc entries)).
  { apply (Permutation_in _ (Permutation_sym (sortByValueDesc_perm entries))).
    unfold entries. apply in_map_iff. exists (word, count). auto. }
  rewrite <- (firstn_skipn 50 (sortByValueDesc entries)) in He.
  apply in_app_or in He. destruct He as [He|He]; [left; exact He|].
  right. intros e Hfe. exact (Hcross e _ Hfe He).
Qed.

(** X8. With at most 50 distinct counted words the word cloud drops
    nothing: every counted word is listed, with the number of its
    occurrences. *)
Theorem generateWordCloud_complete :
  forall comments : list Comment.t,
    List.length (wordCounts comments) <= 50 ->
    forall word : string,
      In word (allWords comments) ->
      In (WordEntry.mk word (count_occ string_dec (allWords comments) word))
         (generateWordCloud comments).
Proof.
  intros comments Hlen word Hin.
  unfold generateWordCloud, JsString.slice. simpl skipn. simpl Nat.sub.
  rewrite firstn_all2.
  2:{ rewrite (Permutation_length (sortByValueDesc_perm _)), length_map. exact Hlen. }
  apply (Permutation_in _ (Permutation_sym (sortByValueDesc_perm _))).
  apply in_map_iff. exists (word, count_occ string_dec (allWords comments) word).
  split; [reflexivity|].
  apply map_get_Some_In.
  destruct (wordCounts_Counts comments) as [_ Hget]. rewrite Hget.
  apply (count_occ_In string_dec) in Hin.
  destruct (count_occ string_dec (allWords comments) word =? 0) eqn:E; [|reflexivity].
  apply Nat.eqb_eq in E. lia.
Qed.

Lemma generateWordCloud_complete_witness :
  In (WordEntry.mk "people" (count_occ string_dec (allWords sampleComments) "people"))
     (generateWordCloud sampleComments).
Proof.
  apply (generateWordCloud_complete sampleComments).
  - vm_compute. lia.
  - vm_compute. tauto.
Defined.

(** X9. The word cloud of a session is made of the processed comments of
    that session alone: each of its words is a counted word of one of them. *)
Theorem wordCloudRoute_sources :
  forall (uploadSession : string) (s : Store) (e : WordEntry.t),
    In e (wordCloudRoute uploadSession s) ->
    exists c, In c s
              /\ Comment.uploadSession c = uploadSession
              /\ Comment.processed c = true
              /\ In (WordEntry.text e) (wordsOf (Comment.originalText c)).
Proof.
  intros session s e He. unfold wordCloudRoute in He.
  apply generateWordCloud_entry in He.
  destruct (Counts_entry _ _ _ _ (wordCounts_Counts _) He) as (_ & _ & Hin).
  apply allWords_In in Hin. destruct Hin as (c & Hc & Hw).
  unfold find in Hc. apply filter_In in Hc. destruct Hc as [Hc Hp].
  apply andb_true_iff in Hp. destruct Hp as [Hs Hp].
  apply String.eqb_eq in Hs. apply Bool.eqb_prop in Hp.
  exists c. auto.
Qed.

Lemma wordCloudRoute_sources_witness :
  exists c, In c sampleComments
            /\ Comment.uploadSession c = "s1"
            /\ Comment.processed c = true
            /\ In "service" (wordsOf (Comment.originalText c)).
Proof.
  apply (wordCloudRoute_sources "s1" sampleComments (WordEntry.mk "service" 2)).
  vm_compute. auto.
Defined.

(** ** What a run does to the store *)

Section RunEffect.

Variable gt_coerced : jsval -> jsval -> option bool.
Variable world : World.

Lemma processOne_store (st : RunState) (c : Comment.t) :
  store (processOne gt_coerced world st c) = updateStep gt_coerced world (store st) c.
Proof. unfold processOne, updateStep. destruct (updateFails world c); reflexivity. Qed.

Lemma processOne_count (st : RunState) (c : Comment.t) :
  processedCount (processOne gt_coerced world st c)
  = processedCount st + List.length (updatable world [c]).
Proof.
  unfold processOne, updatable. simpl. destruct (updateFails world c); simpl; lia.
Qed.

Lemma processBatch_effect (batch : list Comment.t) :
  forall st,
    store (fold_left (processOne gt_coerced world) batch st)
    = fold_left (updateStep gt_coerced world) batch (store st)
    /\ processedCount (fold_left (processOne gt_coerced world) batch st)
       = processedCount st + List.length (updatable world batch).
Proof.
  induction batch as [|c batch IH]; intros st; simpl; [split; [reflexivity|lia]|].
  destruct (IH (processOne gt_coerced world st c)) as [Hs Hc].
  rewrite Hs, Hc, processOne_store, processOne_count.
  split; [reflexivity|]. unfold updatable. simpl.
  destruct (updateFails world c); simpl; lia.
Qed.

(** Whatever the batch size and the delay, a loop that ends has applied the
    updates of the comments from [i] on, in order. *)
Lemma batchLoop_effect (batchSize delay : nat) (comments : list Comment.t) :
  forall fuel i st st',
    batchLoop gt_coerced world fuel batchSize delay comments i st = Some st' ->
    store st' = fold_left (updateStep gt_coerced world) (skipn i comments) (store st)
    /\ processedCount st'
       = processedCount st + List.length (updatable world (skipn i comments)).
Proof.
  induction fuel as [|fuel IH]; intros i st st'; simpl;
    destruct (i <? List.length comments) eqn:Ei; try discriminate.
  - apply Nat.ltb_ge in Ei. intros H; inversion H; subst.
    rewrite skipn_all2 by lia. simpl. split; [reflexivity|lia].
  - set (batch := JsString.slice i (i + batchSize) comments).
    set (st1 := fold_left (processOne gt_coerced world) batch (record (EvBatch batch) st)).
    assert (Hsplit : skipn i comments = batch ++ skipn (i + batchSize) comments).
    { unfold batch, JsString.slice.
      replace (i + batchSize - i) with batchSize by lia.
      rewrite Nat.add_comm, <- skipn_skipn. symmetry. apply firstn_skipn. }
    destruct (processBatch_effect batch (record (EvBatch batch) st)) as [Hs1 Hc1].
    fold st1 in Hs1, Hc1. simpl in Hs1, Hc1.
    intros Hrun.
    assert (Hrest : store st' = fold_left (updateStep gt_coerced world)
                                  (skipn (i + batchSize) comments) (store st1)
                    /\ processedCount st'
                       = processedCount st1
                         + List.length (updatable world (skipn (i + batchSize) comments))).
    { destruct (i + batchSize <? List.length comments);
        apply IH in Hrun; exact Hrun. }
    destruct Hrest as [Hs Hc].
    rewrite Hsplit, fold_left_app, <- Hs1. split; [exact Hs|].
    unfold updatable in *. rewrite filter_app, length_app. lia.
  - apply Nat.ltb_ge in Ei. intros H; inversion H; subst.
    rewrite skipn_all2 by lia. simpl. split; [reflexivity|lia].
Qed.

Lemma updateStep_touch (c : Comment.t) (s : Store) :
  updateStep gt_coerced world s c = map (fun d => touch gt_coerced world d c) s.
Proof.
  unfold updateStep, touch. destruct (updateFails world c).
  - symmetry. apply map_id.
  - reflexivity.
Qed.

Lemma updates_pointwise (comments : list Comment.t) :
  forall s,
    fold_left (updateStep gt_coerced world) comments s
    = map (fun d => fold_left (touch gt_coerced world) comments d) s.
Proof.
  induction comments as [|c cs IH]; intros s; simpl.
  - symmetry. apply map_id.
  - rewrite IH, updateStep_touch, map_map. reflexivity.
Qed.

Lemma touch_identity (d c : Comment.t) :
  identity (touch gt_coerced world d c) = identity d.
Proof.
  unfold touch. destruct (updateFails world c); [reflexivity|].
  destruct (Comment._id d =? Comment._id c); reflexivity.
Qed.

Lemma touches_identity (comments : list Comment.t) :
  forall d, identity (fold_left (touch gt_coerced world) comments d) = identity d.
Proof.
  induction comments as [|c cs IH]; intros d; simpl; [reflexivity|].
  rewrite IH. apply touch_identity.
Qed.

Lemma touches_other (comments : list Comment.t) :
  forall d,
    (forall c, In c comments -> Comment._id c <> Comment._id d) ->
    fold_left (touch gt_coerced world) comments d = d.
Proof.
  induction comments as [|c cs IH]; intros d H; simpl; [reflexivity|].
  assert (Hc : touch gt_coerced world d c = d).
  { unfold touch. destruct (updateFails world c); [reflexivity|].
    destruct (Nat.eqb_spec (Comment._id d) (Comment._id c)) as [E|E]; [|reflexivity].
    exfalso. apply (H c); simpl; auto. }
  rewrite Hc. apply IH. intros c' Hc'. apply H. now right.
Qed.

Lemma touches_self (comments : list Comment.t) :
  forall d,
    In d comments -> NoDup comments ->
    (forall c, In c comments -> Comment._id c = Comment._id d -> c = d) ->
    fold_left (touch gt_coerced world) comments d
    = if updateFails world d then d else withResult (enrichment gt_coerced world d) d.
Proof.
  induction comments as [|c cs IH]; intros d Hin Hnd Hid; simpl; [destruct Hin|].
  inversion Hnd as [|? ? Hnot Hnd']; subst.
  destruct (Nat.eqb_spec (Comment._id d) (Comment._id c)) as [E|E].
  - assert (c = d) by (apply Hid; simpl; auto). subst c.
    set (d1 := touch gt_coerced world d d).
    assert (Hd1 : d1 = if updateFails world d then d
                       else withResult (enrichment gt_coerced world d) d).
    { unfold d1, touch. rewrite Nat.eqb_refl. reflexivity. }
    rewrite touches_other; [exact Hd1|].
    intros c' Hc' Heq. apply Hnot.
    assert (Hsame : Comment._id d1 = Comment._id d).
    { pose proof (touch_identity d d) as Hi. fold d1 in Hi. unfold identity in Hi.
      now inversion Hi. }
    rewrite Hsame in Heq. rewrite <- (Hid c'); simpl; auto.
  - assert (Hc : touch gt_coerced world d c = d).
    { unfold touch. destruct (updateFails world c); [reflexivity|].
      destruct (Nat.eqb_spec (Comment._id d) (Comment._id c)); [contradiction|reflexivity]. }
    rewrite Hc. destruct Hin as [->|Hin]; [contradiction|].
    apply IH; auto. intros c' Hc'. apply Hid. now right.
Qed.

Lemma unique_id (s : Store) (a b : Comment.t) :
  NoDup (map Comment._id s) -> In a s -> In b s -> Comment._id a = Comment._id b -> a = b.
Proof.
  induction s as [|x s IH]; simpl; intros Hnd Ha Hb Heq; [destruct Ha|].
  inversion Hnd as [|? ? Hnot Hnd']; subst.
  destruct Ha as [->|Ha], Hb as [->|Hb]; auto.
  - exfalso. apply Hnot. rewrite Heq. now apply in_map.
  - exfalso. apply Hnot. rewrite <- Heq. now apply in_map.
Qed.

Lemma run_store (uploadSession : string) (s : Store) :
  NoDup (map Comment._id s) ->
  fold_left (updateStep gt_coerced world) (find uploadSession false s) s
  = storeAfterRun gt_coerced world uploadSession s.
Proof.
  intros Hnd. rewrite updates_pointwise. unfold storeAfterRun.
  apply map_ext_in. intros d Hd.
  assert (Hs : NoDup s) by (now apply NoDup_map_inv in Hnd).
  assert (Hfind : forall c, In c (find uploadSession false s) -> In c s)
    by (intros c Hc; unfold find in Hc; apply filter_In in Hc; tauto).
  unfold enrichedBy.
  destruct (String.eqb (Comment.uploadSession d) uploadSession
            && Bool.eqb (Comment.processed d) false) eqn:Epick.
  - assert (Hin : In d (find uploadSession false s))
      by (unfold find; apply filter_In; auto).
    rewrite touches_self; auto.
    + simpl. destruct (updateFails world d); reflexivity.
    + unfold find. now apply NoDup_filter.
    + intros c Hc Heq. apply (unique_id s); auto.
  - simpl. apply touches_other. intros c Hc Heq.
    assert (c = d) by (apply (unique_id s); auto). subst c.
    unfold find in Hc. apply filter_In in Hc. destruct Hc as [_ Hc]. congruence.
Qed.

Lemma run_count (uploadSession : string) (s : Store) :
  List.length (updatable world (find uploadSession false s))
  = List.length (filter (enrichedBy world uploadSession) s).
Proof.
  unfold updatable, find, enrichedBy. induction s as [|d s IH]; simpl; [reflexivity|].
  destruct (String.eqb (Comment.uploadSession d) uploadSession
            && Bool.eqb (Comment.processed d) false); simpl; [|exact IH].
  destruct (updateFails world d); simpl; lia.
Qed.

Lemma background_ends (uploadSession : string) (s : Store) :
  exists st, processCommentsInBackground gt_coerced world uploadSession s = Some st.
Proof.
  unfold processCommentsInBackground.
  destruct (batchLoop_batched gt_coerced world 3 2000 (find uploadSession false s)
              (Nat.lt_0_succ 2) (List.length (find uploadSession false s)) 0 (start s))
    as (st & evs & Hrun & _); [lia|]. eauto.
Qed.

Lemma background_effect (uploadSession : string) (s : Store) (st : RunState) :
  processCommentsInBackground gt_coerced world uploadSession s = Some st ->
  store st = fold_left (updateStep gt_coerced world) (find uploadSession false s) s
  /\ processedCount st = List.length (updatable world (find uploadSession false s)).
Proof.
  unfold processCommentsInBackground. intros H. apply batchLoop_effect in H. exact H.
Qed.

Lemma processRoute_ends (uploadSession : string) (s : Store) :
  exists st r, processRoute gt_coerced world uploadSession s = Some (st, r).
Proof.
  unfold processRoute.
  destruct (List.length (find uploadSession false s) =? 0); [eauto|].
  destruct (batchLoop_batched gt_coerced world 5 1000 (find uploadSession false s)
              (Nat.lt_0_succ 4) (List.length (find uploadSession false s)) 0 (start s))
    as (st & evs & Hrun & _); [lia|].
  rewrite Hrun. simpl. eauto.
Qed.

Lemma processRoute_effect (uploadSession : string) (s : Store) (st : RunState)
      (r : ProcessResponse) :
  processRoute gt_coerced world uploadSession s = Some (st, r) ->
  store st = fold_left (updateStep gt_coerced world) (find uploadSession false s) s
  /\ processedCount st = List.length (updatable world (find uploadSession false s))
  /\ (find uploadSession false s <> [] ->
      r = Processed ("Processed " ++ decimal (processedCount st) ++ " comments")%string
                    (processedCount st)).
Proof.
  unfold processRoute.
  destruct (List.length (find uploadSession false s) =? 0) eqn:E.
  - apply Nat.eqb_eq in E. apply length_zero_iff_nil in E. rewrite E.
    intros H; inversion H; subst. simpl. repeat split. congruence.
  - destruct (batchLoop gt_coerced world _ 5 1000 _ 0 (start s)) as [st0|] eqn:Erun;
      [|discriminate].
    simpl. intros H; inversion H; subst. apply batchLoop_effect in Erun.
    simpl in Erun. destruct Erun as [Hs Hc]. repeat split; auto.
Qed.

End RunEffect.

Lemma countSession_identity (uploadSession : string) (s s' : Store) :
  map identity s' = map identity s ->
  countSession uploadSession s' = countSession uploadSession s.
Proof.
  unfold countSession. revert s'. induction s as [|d s IH]; intros [|d' s'] H;
    simpl in *; try discriminate; [reflexivity|].
  unfold identity at 1 3 in H. injection H as _ _ _ Hu Hs.
  rewrite Hu. specialize (IH s' Hs).
  destruct (String.eqb (Comment.uploadSession d) uploadSession); simpl; lia.
Qed.

Lemma session_counts (uploadSession : string) (s : Store) :
  countSession uploadSession s
  = countProcessed uploadSession s + List.length (find uploadSession false s).
Proof.
  unfold countSession, countProcessed, find. induction s as [|d s IH]; simpl; [reflexivity|].
  destruct (String.eqb (Comment.uploadSession d) uploadSession); simpl; [|exact IH].
  destruct (Comment.processed d); simpl; lia.
Qed.

Lemma storeAfterRun_identity (gt_coerced : jsval -> jsval -> option bool) (world : World)
      (uploadSession : string) (s : Store) :
  forall s0, map identity (fold_left (updateStep gt_coerced world) s0 s) = map identity s.
Proof.
  intros s0. rewrite updates_pointwise, map_map. apply map_ext.
  intros d. apply touches_identity.
Qed.

(** ** The batch scheduler and the store *)

(** X10. When a run ends, its processed count is the number of unprocessed
    comments of the session whose update the store accepts; the on-demand
    route, when there is something to process, reports that number. *)
Theorem scheduler_processed_count :
  forall (gt_coerced : jsval -> jsval -> option bool) (world : World)
         (uploadSession : string) (s : Store),
    (forall st,
        processCommentsInBackground gt_coerced world uploadSession s = Some st ->
        processedCount st = List.length (updatable world (find uploadSession false s)))
    /\ (forall st r,
           processRoute gt_coerced world uploadSession s = Some (st, r) ->
           processedCount st = List.length (updatable world (find uploadSession false s))
           /\ (find uploadSession false s <> [] ->
               reportedCount r
               = Some (List.length (updatable world (find uploadSession false s))))).
Proof.
  intros gt world session s. split.
  - intros st Hrun. now apply background_effect in Hrun.
  - intros st r Hrun.
    apply processRoute_effect in Hrun. destruct Hrun as (_ & Hc & Hr).
    split; [exact Hc|]. intros Hne. rewrite (Hr Hne). simpl. now rewrite Hc.
Qed.

Lemma scheduler_processed_count_witness :
  exists st r,
    processRoute noCoercion offline "s1" sevenUnprocessed = Some (st, r)
    /\ reportedCount r = Some 7.
Proof.
  destruct (processRoute_ends noCoercion offline "s1" sevenUnprocessed) as (st & r & Hrun).
  exists st, r. split; [exact Hrun|].
  apply (proj2 (proj2 (scheduler_processed_count noCoercion offline "s1" sevenUnprocessed)
                      st r Hrun)).
  discriminate.
Defined.

(** X11. A run never changes the identity of a document: the store keeps
    its documents in number and order, each with its [_id], [commentId],
    [originalText] and [uploadSession], so the total of every session stays
    what it was. *)
Theorem scheduler_keeps_identity :
  forall (gt_coerced : jsval -> jsval -> option bool) (world : World)
         (uploadSession : string) (s : Store),
    (forall st,
        processCommentsInBackground gt_coerced world uploadSession s = Some st ->
        map identity (store st) = map identity s
        /\ forall other, countSession other (store st) = countSession other s)
    /\ (forall st r,
           processRoute gt_coerced world uploadSession s = Some (st, r) ->
           map identity (store st) = map identity s
           /\ forall other, countSession other (store st) = countSession other s).
Proof.
  intros gt world session s. split.
  - intros st Hrun. apply background_effect in Hrun. destruct Hrun as [Hs _].
    assert (Hid : map identity (store st) = map identity s)
      by (rewrite Hs; now apply storeAfterRun_identity).
    split; [exact Hid|]. intros other. now apply countSession_identity.
  - intros st r Hrun. apply processRoute_effect in Hrun. destruct Hrun as (Hs & _).
    assert (Hid : map identity (store st) = map identity s)
      by (rewrite Hs; now apply storeAfterRun_identity).
    split; [exact Hid|]. intros other. now apply countSession_identity.
Qed.

Lemma scheduler_keeps_identity_witness :
  exists st,
    processCommentsInBackground noCoercion offline "s1" sevenUnprocessed = Some st
    /\ map identity (store st) = map identity sevenUnprocessed.
Proof.
  destruct (background_ends noCoercion offline "s1" sevenUnprocessed) as (st & Hrun).
  exists st. split; [exact Hrun|].
  exact (proj1 (proj1 (scheduler_keeps_identity noCoercion offline "s1" sevenUnprocessed)
                      st Hrun)).
Defined.

Lemma summarizeText_string (remote : HttpOutcome) (text : string) :
  summaryIsString remote = true -> exists t, summarizeText remote text = JStr t.
Proof.
  unfold summaryIsString, summarizeText. intros H.
  destruct (String.length text <? 100); [eauto|].
  destruct remote as [|[|] [payload|]]; simpl; eauto.
  destruct payload as [| | | | |[|first rest]|]; simpl; eauto.
  unfold remoteSummary in H. unfold bind.
  destruct (getProp first "summary_text") as [v|]; simpl; eauto.
  destruct (truthy v); eauto.
  destruct v; try discriminate. eauto.
Qed.

(** X12. In a store whose documents have distinct [_id]s, and in a world
    whose remote answers carry per-class scores in [0, 1] and summaries that
    are strings, a run of either kind that ends has rewritten exactly the
    unprocessed documents of the session whose update the store accepts, each
    with the enrichment of its own text and [processed = true], and has left
    every other document as it was. What it writes is a string summary and a
    Number confidence, the types the schema declares for these fields. *)
Theorem scheduler_store_after_run :
  forall (gt_coerced : jsval -> jsval -> option bool) (world : World)
         (uploadSession : string) (s : Store),
    NoDup (map Comment._id s) ->
    (forall d, In d s -> scoresInUnit (sentimentCall world d) = true) ->
    (forall d, In d s -> summaryIsString (summaryCall world d) = true) ->
    (forall st,
        processCommentsInBackground gt_coerced world uploadSession s = Some st ->
        store st = storeAfterRun gt_coerced world uploadSession s)
    /\ (forall st r,
           processRoute gt_coerced world uploadSession s = Some (st, r) ->
           store st = storeAfterRun gt_coerced world uploadSession s)
    /\ (forall d, In d s ->
           (exists t, Enriched.summary (enrichment gt_coerced world d) = JStr t)
           /\ validConfidence (Enriched.confidence (enrichment gt_coerced world d))
           /\ validSentiment (Enriched.sentiment (enrichment gt_coerced world d))).
Proof.
  intros gt world session s Hnd Hscores Hsummaries. split; [|split].
  - intros st Hrun. apply background_effect in Hrun. destruct Hrun as [Hs _].
    rewrite Hs. now apply run_store.
  - intros st r Hrun. apply processRoute_effect in Hrun. destruct Hrun as (Hs & _).
    rewrite Hs. now apply run_store.
  - intros d Hd. unfold enrichment, processComment, processComment_settled; simpl.
    split; [apply summarizeText_string; now apply Hsummaries|].
    destruct (analyzeSentiment_in_range gt (sentimentCall world d)
                (Comment.originalText d) (Hscores d Hd)) as [Hv Hc].
    split; assumption.
Qed.

Lemma scheduler_store_after_run_witness :
  exists st,
    processCommentsInBackground noCoercion offline "s1" sevenUnprocessed = Some st
    /\ store st = storeAfterRun noCoercion offline "s1" sevenUnprocessed.
Proof.
  destruct (background_ends noCoercion offline "s1" sevenUnprocessed) as (st & Hrun).
  exists st. split; [exact Hrun|].
  refine (proj1 (scheduler_store_after_run noCoercion offline "s1" sevenUnprocessed
                   _ _ _) st Hrun).
  - vm_compute. repeat constructor; simpl; intuition discriminate.
  - intros d _. reflexivity.
  - intros d _. reflexivity.
Defined.

(** X13. The batch size and the delay change the schedule only: on the same
    store and in the same world the background run and the on-demand run end
    with the same store and the same processed count. *)
Theorem scheduler_modes_agree :
  forall (gt_coerced : jsval -> jsval -> option bool) (world : World)
         (uploadSession : string) (s : Store),
    exists st1 st2 r,
      processCommentsInBackground gt_coerced world uploadSession s = Some st1
      /\ processRoute gt_coerced world uploadSession s = Some (st2, r)
      /\ store st1 = store st2
      /\ processedCount st1 = processedCount st2.
Proof.
  intros gt world session s.
  destruct (background_ends gt world session s) as (st1 & H1).
  destruct (processRoute_ends gt world session s) as (st2 & r & H2).
  exists st1, st2, r. split; [exact H1|]. split; [exact H2|].
  apply background_effect in H1. apply processRoute_effect in H2.
  destruct H1 as [Hs1 Hc1], H2 as (Hs2 & Hc2 & _). split; congruence.
Qed.

(** X14. In a store whose documents have distinct [_id]s, once a run in
    which no update of the session is rejected has ended, no comment of the
    session is left unprocessed: the status is complete as soon as the session
    has a comment, and running the on-demand route again changes nothing and
    answers that there is nothing to process. *)
Theorem scheduler_completes_session :
  forall (gt_coerced : jsval -> jsval -> option bool) (world : World)
         (uploadSession : string) (s : Store),
    NoDup (map Comment._id s) ->
    (forall d, In d s -> Comment.uploadSession d = uploadSession ->
               updateFails world d = false) ->
    exists st,
      processCommentsInBackground gt_coerced world uploadSession s = Some st
      /\ find uploadSession false (store st) = []
      /\ Status.isComplete (getStatus uploadSession (store st))
         = (0 <? countSession uploadSession s)
      /\ processRoute gt_coerced world uploadSession (store st)
         = Some (start (store st),
                 NothingToProcess "No comments to process or all comments already processed").
Proof.
  intros gt world session s Hnd Hok.
  destruct (background_ends gt world session s) as (st & Hrun).
  exists st. split; [exact Hrun|].
  apply background_effect in Hrun. destruct Hrun as [Hs _].
  assert (Hid : map identity (store st) = map identity s)
    by (rewrite Hs; now apply storeAfterRun_identity).
  rewrite (run_store gt world session s Hnd) in Hs.
  assert (Hnone : find session false (store st) = []).
  { rewrite Hs. clear Hs Hid Hnd. unfold storeAfterRun, find.
    induction s as [|d s IH]; simpl; [reflexivity|].
    rewrite IH by (intros d' Hd'; apply Hok; now right).
    unfold enrichedBy.
    destruct (String.eqb (Comment.uploadSession d) session) eqn:Eu; simpl.
    - apply String.eqb_eq in Eu. rewrite (Hok d (or_introl eq_refl) Eu). simpl.
      destruct (Comment.processed d) eqn:Ep; simpl.
      + rewrite Ep. destruct (String.eqb (Comment.uploadSession d) session); reflexivity.
      + destruct (String.eqb (Comment.uploadSession d) session); reflexivity.
    - now rewrite Eu. }
  split; [exact Hnone|]. split.
  - unfold getStatus; simpl.
    pose proof (session_counts session (store st)) as Hc. rewrite Hnone in Hc. simpl in Hc.
    rewrite (countSession_identity session s (store st) Hid) in *.
    replace (countProcessed session (store st)) with (countSession session s) by lia.
    now rewrite Nat.eqb_refl, andb_true_r.
  - unfold processRoute. rewrite Hnone. reflexivity.
Qed.

Lemma scheduler_completes_session_witness :
  exists st,
    processCommentsInBackground noCoercion offline "s1" sevenUnprocessed = Some st
    /\ find "s1" false (store st) = []
    /\ Status.isComplete (getStatus "s1" (store st)) = (0 <? countSession "s1" sevenUnprocessed)
    /\ processRoute noCoercion offline "s1" (store st)
       = Some (start (store st),
               NothingToProcess "No comments to process or all comments already processed").
Proof.
  apply (scheduler_completes_session noCoercion offline "s1" sevenUnprocessed).
  - vm_compute. repeat constructor; simpl; intuition discriminate.
  - reflexivity.
Defined.

(** ** Further properties of the queries *)

Lemma getStatistics_fields (uploadSession : string) (s : Store) :
  getStatistics uploadSession s
  = Statistics.mk (countSession uploadSession s) (countProcessed uploadSession s)
      (countSentiment uploadSession "positive" s)
      (countSentiment uploadSession "negative" s)
      (countSentiment uploadSession "neutral" s).
Proof.
  unfold getStatistics, statsOf. rewrite statsOf_fields. simpl.
  now rewrite !pickCount_aggregate.
Qed.

Lemma three_sentiments (docs : list Comment.t) :
  let count v := List.length (filter (fun c => String.eqb (Comment.sentiment c) v) docs) in
  count "positive" + count "negative" + count "neutral" <= List.length docs
  /\ ((forall c, In c docs -> validSentiment (Comment.sentiment c)) ->
      count "positive" + count "negative" + count "neutral" = List.length docs).
Proof.
  induction docs as [|c docs [IHle IHeq]]; simpl; [split; [lia|reflexivity]|].
  assert (Hc : (Comment.sentiment c = "positive" \/ Comment.sentiment c = "negative"
                \/ Comment.sentiment c = "neutral")
               \/ (String.eqb (Comment.sentiment c) "positive" = false
                   /\ String.eqb (Comment.sentiment c) "negative" = false
                   /\ String.eqb (Comment.sentiment c) "neutral" = false)).
  { destruct (String.eqb_spec (Comment.sentiment c) "positive"); [auto|].
    destruct (String.eqb_spec (Comment.sentiment c) "negative"); [auto|].
    destruct (String.eqb_spec (Comment.sentiment c) "neutral"); auto. }
  split.
  - destruct Hc as [[E|[E|E]]|(E1 & E2 & E3)];
      [rewrite E| rewrite E| rewrite E| rewrite E1, E2, E3]; simpl in *; lia.
  - intros Hv. specialize (IHeq (fun c' Hc' => Hv c' (or_intror Hc'))).
    destruct (Hv c (or_introl eq_refl)) as [E|[E|E]]; rewrite E; simpl in *; lia.
Qed.

Lemma getStatisticsAt_fields (uploadSession : string) (s1 s2 s3 : Store) :
  getStatisticsAt uploadSession s1 s2 s3
  = Statistics.mk (countSession uploadSession s1) (countProcessed uploadSession s2)
      (countSentiment uploadSession "positive" s3)
      (countSentiment uploadSession "negative" s3)
      (countSentiment uploadSession "neutral" s3).
Proof.
  unfold getStatisticsAt, statsOf. rewrite statsOf_fields. simpl.
  now rewrite !pickCount_aggregate.
Qed.

(** X15. The statistics route reads the store three times. When the count
    of processed comments and the grouping read the same state of the store,
    the three sentiment counts do not add up to more than [processed], and
    they add up to it exactly when every processed comment of the session has
    one of the three sentiments; [processed] is at most [total] also when the
    total is read from another state that holds the same documents, as every
    state that runs of the scheduler lead to does. With one state read three
    times this is the [stats] object of the route. *)
Theorem getStatistics_totals :
  forall (uploadSession : string) (sTotal s : Store),
    map identity sTotal = map identity s ->
    let stats := getStatisticsAt uploadSession sTotal s s in
    Statistics.positive stats + Statistics.negative stats + Statistics.neutral stats
    <= Statistics.processed stats
    /\ Statistics.processed stats <= Statistics.total stats
    /\ ((forall c, In c s -> Comment.uploadSession c = uploadSession ->
                   Comment.processed c = true -> validSentiment (Comment.sentiment c)) ->
        Statistics.positive stats + Statistics.negative stats + Statistics.neutral stats
        = Statistics.processed stats)
    /\ getStatisticsAt uploadSession s s s = getStatistics uploadSession s.
Proof.
  intros session sTotal s Hid. cbv zeta. rewrite getStatisticsAt_fields. simpl.
  unfold countSentiment, countProcessed.
  destruct (three_sentiments (find session true s)) as [Hle Heq]. cbv zeta in Hle, Heq.
  split; [exact Hle|]. split; [|split].
  - rewrite (countSession_identity session s sTotal Hid).
    pose proof (session_counts session s). unfold countProcessed in *. lia.
  - intros Hv. apply Heq. intros c Hc. unfold find in Hc. apply filter_In in Hc.
    destruct Hc as [Hc Hp]. apply andb_true_iff in Hp. destruct Hp as [Hu Hp].
    apply String.eqb_eq in Hu. apply Bool.eqb_prop in Hp. auto.
  - reflexivity.
Qed.

Lemma getStatistics_totals_witness :
  let stats := getStatisticsAt "s1" allProcessed allProcessed allProcessed in
  Statistics.positive stats + Statistics.negative stats + Statistics.neutral stats
  = Statistics.processed stats.
Proof.
  apply (proj1 (proj2 (proj2 (getStatistics_totals "s1" allProcessed allProcessed eq_refl)))).
  intros c Hc _ _. simpl in Hc.
  destruct Hc as [<-|[<-|[]]]; right; right; reflexivity.
Defined.

(** X16. In the status of a session [processed] is at most [total], and the
    session is complete exactly when it has a comment and none of its
    comments is unprocessed. *)
Theorem getStatus_complete_iff :
  forall (uploadSession : string) (s : Store),
    Status.processed (getStatus uploadSession s) <= Status.total (getStatus uploadSession s)
    /\ (Status.isComplete (getStatus uploadSession s) = true <->
        0 < countSession uploadSession s /\ find uploadSession false s = []).
Proof.
  intros session s. unfold getStatus; simpl.
  pose proof (session_counts session s) as Hc.
  split; [lia|].
  rewrite andb_true_iff, Nat.ltb_lt, Nat.eqb_eq, <- length_zero_iff_nil.
  split; intros [H1 H2]; split; auto; lia.
Qed.

(** ** The intake of an upload *)

Lemma trimEnd_idempotent (s : string) :
  JsString.trimEnd (JsString.trimEnd s) = JsString.trimEnd s.
Proof.
  induction s as [|c r IH]; simpl; [reflexivity|].
  destruct (JsString.trimEnd r) as [|c' r'] eqn:E.
  - destruct (JsString.is_space c) eqn:Ec; simpl; [reflexivity|]. now rewrite Ec.
  - change (JsString.trimEnd (String c (String c' r')))
      with (match JsString.trimEnd (String c' r') with
            | EmptyString =>
                if JsString.is_space c then EmptyString else String c EmptyString
            | r'' => String c r''
            end).
    now rewrite IH.
Qed.

Lemma trimEnd_head (c : ascii) (r : string) :
  JsString.is_space c = false ->
  exists r', JsString.trimEnd (String c r) = String c r'.
Proof.
  intros Hc. simpl. destruct (JsString.trimEnd r); [rewrite Hc|]; eauto.
Qed.

Lemma trimStart_head (s : string) :
  JsString.trimStart s = EmptyString
  \/ exists c r, JsString.trimStart s = String c r /\ JsString.is_space c = false.
Proof.
  induction s as [|c r IH]; simpl; [auto|].
  destruct (JsString.is_space c) eqn:Ec; [exact IH|]. right. eauto.
Qed.

Lemma trim_idempotent (s : string) : JsString.trim (JsString.trim s) = JsString.trim s.
Proof.
  unfold JsString.trim.
  destruct (trimStart_head s) as [E|(c & r & E & Hc)]; rewrite E; [reflexivity|].
  destruct (trimEnd_head c r Hc) as (r' & Er).
  assert (Hstart : JsString.trimStart (JsString.trimEnd (String c r))
                   = JsString.trimEnd (String c r))
    by (rewrite Er; simpl; now rewrite Hc).
  rewrite Hstart. apply trimEnd_idempotent.
Qed.

Lemma header_char_plain (c : ascii) :
  is_header_char c = true ->
  JsString.is_upper c = false /\ JsString.is_space c = false
  /\ (if is_lower_alnum c then c else "_"%char) = c.
Proof.
  destruct c as [[] [] [] [] [] [] [] []]; vm_compute; intros H;
    try discriminate; repeat split.
Qed.

Lemma replaceOutside_chars (s : string) (c : ascii) :
  In c (chars (replaceOutside is_lower_alnum "_" s)) -> is_header_char c = true.
Proof.
  induction s as [|a r IH]; simpl; [tauto|].
  intros [<-|H]; [|auto]. unfold is_header_char.
  destruct (is_lower_alnum a) eqn:Ea; [now rewrite Ea|reflexivity].
Qed.

Lemma trimEnd_fixed (s : string) :
  (forall c, In c (chars s) -> JsString.is_space c = false) -> JsString.trimEnd s = s.
Proof.
  induction s as [|a r IH]; simpl; intros H; [reflexivity|].
  rewrite IH by auto. destruct r; [|reflexivity]. now rewrite (H a) by auto.
Qed.

Lemma trimStart_fixed (s : string) :
  (forall c, In c (chars s) -> JsString.is_space c = false) -> JsString.trimStart s = s.
Proof.
  destruct s as [|a r]; simpl; intros H; [reflexivity|]. now rewrite (H a) by auto.
Qed.

Lemma replaceOutside_fixed (s : string) :
  (forall c, In c (chars s) -> is_header_char c = true) ->
  replaceOutside is_lower_alnum "_" s = s.
Proof.
  induction s as [|a r IH]; simpl; intros H; [reflexivity|].
  rewrite IH by auto.
  destruct (header_char_plain a (H a (or_introl eq_refl))) as (_ & _ & Ha).
  now rewrite Ha.
Qed.

(** X17. A mapped header is made of lower-case letters, digits and
    underscores only, and mapping it again gives the same header. *)
Theorem mapHeaders_normal_form :
  forall header : string,
    (forall c, In c (chars (mapHeaders header)) -> is_header_char c = true)
    /\ mapHeaders (mapHeaders header) = mapHeaders header.
Proof.
  intros header.
  assert (Hchars : forall c, In c (chars (mapHeaders header)) -> is_header_char c = true)
    by (intros c; apply replaceOutside_chars).
  split; [exact Hchars|].
  unfold mapHeaders at 1.
  rewrite toLowerCase_fixed
    by (intros c Hc; now destruct (header_char_plain c (Hchars c Hc))).
  unfold JsString.trim.
  rewrite trimStart_fixed
    by (intros c Hc; now destruct (header_char_plain c (Hchars c Hc)) as (_ & ? & _)).
  rewrite trimEnd_fixed
    by (intros c Hc; now destruct (header_char_plain c (Hchars c Hc)) as (_ & ? & _)).
  now apply replaceOutside_fixed.
Qed.

Lemma onData_texts (uploadSession : string) (comments : list NewComment.t) (row : Row) :
  map NewComment.originalText (onData uploadSession comments row)
  = map NewComment.originalText comments
    ++ (if hasText row then [JsString.trim (rowText row)] else []).
Proof.
  unfold onData, hasText, rowText.
  destruct (negb _ && negb _); [|now rewrite app_nil_r].
  now rewrite map_app.
Qed.

Lemma onData_wellFormed (uploadSession : string) (comments : list NewComment.t) (row : Row) :
  Forall (wellFormed uploadSession) comments ->
  Forall (wellFormed uploadSession) (onData uploadSession comments row).
Proof.
  intros H. unfold onData.
  destruct (negb (String.eqb _ "")) eqn:E1; simpl; [|exact H].
  destruct (negb (String.eqb (JsString.trim _) "")) eqn:E2; simpl; [|exact H].
  apply Forall_app. split; [exact H|]. constructor; [|constructor].
  unfold wellFormed; simpl. repeat split.
  - apply negb_true_iff in E2. now apply String.eqb_neq in E2.
  - apply trim_idempotent.
  - match goal with |- context [if String.eqb ?i "" then _ else _] =>
      destruct (String.eqb_spec i "") as [Ei|Ei] end; [discriminate|exact Ei].
Qed.

Lemma parsedComments_from (uploadSession : string) (rows : list Row) :
  forall comments,
    Forall (wellFormed uploadSession) comments ->
    Forall (wellFormed uploadSession) (fold_left (onData uploadSession) rows comments)
    /\ map NewComment.originalText (fold_left (onData uploadSession) rows comments)
       = map NewComment.originalText comments
         ++ map (fun row => JsString.trim (rowText row)) (filter hasText rows).
Proof.
  induction rows as [|row rows IH]; intros comments H; simpl.
  - split; [exact H|]. now rewrite app_nil_r.
  - destruct (IH _ (onData_wellFormed uploadSession comments row H)) as [Hw Ht].
    split; [exact Hw|]. rewrite Ht, onData_texts.
    destruct (hasText row); simpl; [|now rewrite app_nil_r].
    now rewrite <- app_assoc.
Qed.

(** X18. Every comment the upload keeps has an original text that is
    trimmed and not empty, a comment id that is not empty, and the session of
    the upload; the texts are the trimmed texts of the rows that have one, in
    the order of the rows. *)
Theorem parsedComments_well_formed :
  forall (uploadSession : string) (rows : list Row),
    Forall (wellFormed uploadSession) (parsedComments uploadSession rows)
    /\ map NewComment.originalText (parsedComments uploadSession rows)
       = map (fun row => JsString.trim (rowText row)) (filter hasText rows).
Proof.
  intros session rows.
  destruct (parsedComments_from session rows [] (Forall_nil _)) as [Hw Ht].
  split; [exact Hw|exact Ht].
Qed.

(** X19. The upload is rejected with status 400 exactly when no row has a
    text; otherwise the answer counts the rows that have one, and that many
    comments are handed to the store. *)
Theorem uploadRoute_counts :
  forall (uploadSession : string) (rows : list Row),
    let kept := List.length (filter hasText rows) in
    (kept = 0 ->
     uploadRoute uploadSession rows
     = (UploadRejected 400 "No valid comments found in CSV file", []))
    /\ (0 < kept ->
        exists message comments,
          uploadRoute uploadSession rows
          = (UploadAccepted message uploadSession kept, comments)
          /\ List.length comments = kept).
Proof.
  intros session rows kept.
  assert (Hlen : List.length (parsedComments session rows) = kept).
  { destruct (parsedComments_from session rows [] (Forall_nil _)) as [_ Ht].
    apply (f_equal (@List.length _)) in Ht. fold (parsedComments session rows) in Ht.
    simpl in Ht. now rewrite !length_map in Ht. }
  unfold uploadRoute. rewrite Hlen. split.
  - intros ->. reflexivity.
  - intros Hpos. destruct kept as [|k]; [lia|]. simpl. eauto.
Qed.

Lemma uploadRoute_counts_witness :
  exists message comments,
    uploadRoute "s1" sampleRows = (UploadAccepted message "s1" 2, comments)
    /\ List.length comments = 2.
Proof.
  apply (proj2 (uploadRoute_counts "s1" sampleRows)). vm_compute. lia.
Defined.

(** ** More on the runs *)

Section RunUpdates.

Variable gt_coerced : jsval -> jsval -> option bool.
Variable world : World.

Lemma processBatch_updates (batch : list Comment.t) :
  forall st,
    updates (trace (fold_left (processOne gt_coerced world) batch st))
    = updates (trace st) ++ map Comment._id (updatable world batch).
Proof.
  induction batch as [|c batch IH]; intros st; simpl; [now rewrite app_nil_r|].
  rewrite IH. unfold processOne, updatable. simpl.
  destruct (updateFails world c); simpl; [reflexivity|].
  rewrite updates_app. simpl. now rewrite <- app_assoc.
Qed.

Lemma batchLoop_updates (batchSize delay : nat) (comments : list Comment.t) :
  forall fuel i st st',
    batchLoop gt_coerced world fuel batchSize delay comments i st = Some st' ->
    updates (trace st')
    = updates (trace st) ++ map Comment._id (updatable world (skipn i comments)).
Proof.
  induction fuel as [|fuel IH]; intros i st st'; simpl;
    destruct (i <? List.length comments) eqn:Ei; try discriminate.
  - apply Nat.ltb_ge in Ei. intros H; inversion H; subst.
    rewrite skipn_all2 by lia. simpl. now rewrite app_nil_r.
  - set (batch := JsString.slice i (i + batchSize) comments).
    set (st1 := fold_left (processOne gt_coerced world) batch (record (EvBatch batch) st)).
    assert (Hsplit : skipn i comments = batch ++ skipn (i + batchSize) comments).
    { unfold batch, JsString.slice.
      replace (i + batchSize - i) with batchSize by lia.
      rewrite Nat.add_comm, <- skipn_skipn. symmetry. apply firstn_skipn. }
    assert (H1 : updates (trace st1)
                 = updates (trace st) ++ map Comment._id (updatable world batch)).
    { unfold st1. rewrite processBatch_updates. simpl.
      rewrite updates_app. simpl. now rewrite app_nil_r. }
    intros Hrun.
    assert (Hrest : updates (trace st')
                    = updates (trace st1)
                      ++ map Comment._id
                           (updatable world (skipn (i + batchSize) comments))).
    { destruct (i + batchSize <? List.length comments); apply IH in Hrun;
        [|exact Hrun].
      simpl in Hrun. rewrite updates_app in Hrun. simpl in Hrun.
      now rewrite app_nil_r in Hrun. }
    rewrite Hrest, H1, Hsplit. unfold updatable.
    now rewrite filter_app, map_app, app_assoc.
  - apply Nat.ltb_ge in Ei. intros H; inversion H; subst.
    rewrite skipn_all2 by lia. simpl. now rewrite app_nil_r.
Qed.

End RunUpdates.

(** X20. When a run ends, the documents it has updated are the unprocessed
    comments of the session whose update the store accepts, each of them once
    and no other document, in whatever order the updates of a batch landed;
    the processed count is the number of these updates. *)
Theorem scheduler_updates_once :
  forall (gt_coerced : jsval -> jsval -> option bool) (world : World)
         (uploadSession : string) (s : Store),
    (forall st,
        processCommentsInBackground gt_coerced world uploadSession s = Some st ->
        Permutation (updates (trace st))
                    (map Comment._id (updatable world (find uploadSession false s)))
        /\ processedCount st = List.length (updates (trace st)))
    /\ (forall st r,
           processRoute gt_coerced world uploadSession s = Some (st, r) ->
           Permutation (updates (trace st))
                       (map Comment._id (updatable world (find uploadSession false s)))
           /\ processedCount st = List.length (updates (trace st))).
Proof.
  intros gt world session s. split.
  - intros st Hrun. pose proof (background_effect gt world session s st Hrun) as [_ Hc].
    unfold processCommentsInBackground in Hrun. apply batchLoop_updates in Hrun.
    simpl in Hrun. rewrite Hrun, length_map. auto.
  - intros st r Hrun. pose proof (processRoute_effect gt world session s st r Hrun)
      as (_ & Hc & _).
    assert (Hu : updates (trace st)
                 = map Comment._id (updatable world (find session false s))).
    { unfold processRoute in Hrun.
      destruct (List.length (find session false s) =? 0) eqn:E.
      - apply Nat.eqb_eq in E. apply length_zero_iff_nil in E.
        inversion Hrun; subst. now rewrite E.
      - destruct (batchLoop gt world _ 5 1000 _ 0 (start s)) as [st0|] eqn:Erun;
          [|discriminate].
        simpl in Hrun. inversion Hrun; subst. now apply batchLoop_updates in Erun. }
    rewrite Hu, length_map. auto.
Qed.

Lemma scheduler_updates_once_witness :
  exists st,
    processCommentsInBackground noCoercion offline "s1" sevenUnprocessed = Some st
    /\ Permutation (updates (trace st)) [1; 2; 3; 4; 5; 6; 7].
Proof.
  destruct (background_ends noCoercion offline "s1" sevenUnprocessed) as (st & Hrun).
  exists st. split; [exact Hrun|].
  exact (proj1 (proj1 (scheduler_updates_once noCoercion offline "s1" sevenUnprocessed)
                      st Hrun)).
Defined.

(** X21. In a store whose documents have distinct [_id]s, and when the
    per-class scores of the remote answers are in [0, 1], a run keeps the
    store well-formed: if every processed document had one of the three
    sentiments and a confidence in [0, 1] before the run, so has every
    processed document after it. *)
Theorem scheduler_keeps_store_in_range :
  forall (gt_coerced : jsval -> jsval -> option bool) (world : World)
         (uploadSession : string) (s : Store),
    NoDup (map Comment._id s) ->
    (forall d, In d s -> scoresInUnit (sentimentCall world d) = true) ->
    (forall d, In d s -> Comment.processed d = true ->
               validSentiment (Comment.sentiment d)
               /\ validConfidence (Comment.confidence d)) ->
    exists st,
      processCommentsInBackground gt_coerced world uploadSession s = Some st
      /\ forall d, In d (store st) -> Comment.processed d = true ->
                   validSentiment (Comment.sentiment d)
                   /\ validConfidence (Comment.confidence d).
Proof.
  intros gt world session s Hnd Hscores Hinv.
  destruct (background_ends gt world session s) as (st & Hrun).
  exists st. split; [exact Hrun|].
  apply background_effect in Hrun. destruct Hrun as [Hs _].
  rewrite (run_store gt world session s Hnd) in Hs. rewrite Hs.
  intros d Hd Hp. unfold storeAfterRun in Hd. apply in_map_iff in Hd.
  destruct Hd as (d0 & Hd & Hd0).
  destruct (enrichedBy world session d0); subst d.
  - unfold withResult, enrichment, processComment, processComment_settled; simpl.
    apply analyzeSentiment_in_range. now apply Hscores.
  - now apply Hinv.
Qed.

Lemma scheduler_keeps_store_in_range_witness :
  exists st,
    processCommentsInBackground noCoercion offline "s1" sevenUnprocessed = Some st
    /\ forall d, In d (store st) -> Comment.processed d = true ->
                 validSentiment (Comment.sentiment d)
                 /\ validConfidence (Comment.confidence d).
Proof.
  apply (scheduler_keeps_store_in_range noCoercion offline "s1" sevenUnprocessed).
  - vm_compute. repeat constructor; simpl; intuition discriminate.
  - intros d _. reflexivity.
  - intros d Hd Hp. simpl in Hd.
    repeat (destruct Hd as [<-|Hd]; [discriminate Hp|]). destruct Hd.
Defined.

(** X22. [isStopWord] does not see the case of the word. *)
Theorem isStopWord_case_insensitive :
  forall word : string,
    isStopWord (JsString.toLowerCase word) = isStopWord word.
Proof.
  intros word. unfold isStopWord. now rewrite toLowerCase_idempotent.
Qed.
